(** * HOGBEN: design-space search drivers and the Sample wrapper

    A shallow embedding of [hogben/visualise.py] (the exhaustive search
    drivers [angle_choice], [scan_parameters], [contrast_choice_single],
    [contrast_choice_double], [underlayer_choice]) and of
    [hogben/models/samples.py] (the [Sample] wrapper around a refnx or
    Refl1D structure), together with the properties the specification
    states about them.

    Conventions of the embedding:
    - Python floats are rationals ([Q]); rounding and NaN are not modelled.
      Comparisons are those of [Q], so two scalars "tie" when they are
      equal as rationals.
    - A Python exception is a value of [exn]; a computation returns an
      [outcome].
    - Mutable Python lists handed to the drivers by reference live in a
      heap; [a + b] on lists allocates a fresh list.
    - Everything observable a driver does (progress lines, calls of the
      sample's capability methods, plotting calls) is appended to a log.
    - Collaborators that are not part of the two modules (the simulator,
      the Fisher class, numpy's transcendental routines, the plotting
      back end) are parameters. *)

From Stdlib Require Import QArith ZArith Lia List Ascii String.
From stdpp Require Import base list strings pretty gmap.

Local Open Scope Q_scope.

(** ** Python exceptions and outcomes *)

Module Py.

Inductive exn : Type :=
| AssertionError
| RuntimeError (msg : string)
| AttributeError (attr : string)
| ValueError (msg : string)
| IndexError
| OtherError (msg : string).

Inductive outcome (A : Type) : Type :=
| Ok (a : A)
| Raise (e : exn).
Arguments Ok {A} a.
Arguments Raise {A} e.

Definition obind {A B} (r : outcome A) (k : A -> outcome B) : outcome B :=
  match r with
  | Ok a => k a
  | Raise e => Raise e
  end.

Definition is_ok {A} (r : outcome A) : bool :=
  match r with Ok _ => true | Raise _ => false end.

(** [np.argmax] on a sequence of floats: index of the first maximal
    element; an empty sequence raises [ValueError].  The scan keeps the
    current best and replaces it only by a strictly larger element. *)
Fixpoint argmax_from (best : nat) (best_val : Q) (i : nat) (l : list Q) : nat :=
  match l with
  | [] => best
  | x :: t =>
      if Qlt_le_dec best_val x
      then argmax_from i x (S i) t
      else argmax_from best best_val (S i) t
  end.

Definition argmax (l : list Q) : outcome nat :=
  match l with
  | [] => Raise (ValueError "attempt to get argmax of an empty sequence")
  | x :: t => Ok (argmax_from 0 x 1 t)
  end.

(** [enumerate(xs)], with the counter starting at [k]. *)
Fixpoint enumerate_from {A} (k : nat) (xs : list A) : list (nat * A) :=
  match xs with
  | [] => []
  | x :: t => (k, x) :: enumerate_from (S k) t
  end.

Definition enumerate {A} (xs : list A) : list (nat * A) := enumerate_from 0 xs.

(** [posixpath.join] of two components. *)
Definition ends_with_slash (s : string) : bool :=
  match String.rev s with
  | String c _ => bool_decide (c = "/"%char)
  | EmptyString => false
  end.

Definition os_path_join (a b : string) : string :=
  match b with
  | String c _ =>
      if bool_decide (c = "/"%char) then b
      else if bool_decide (a = EmptyString) || ends_with_slash a then a +:+ b
      else a +:+ "/" +:+ b
  | EmptyString =>
      if bool_decide (a = EmptyString) || ends_with_slash a then a else a +:+ "/"
  end.

End Py.
Import Py.

(** ** hogben/visualise.py *)

Module Visualise.

(** One entry of a measurement plan: [(angle, points, time)]. *)
Definition angle_time : Type := Q * Z * Q.

(** An underlayer candidate: [(thickness, sld)]. *)
Definition underlayer : Type := Q * Q.

(** References to mutable Python objects. *)
Definition loc : Type := nat.

(** A [refnx.analysis.Parameter], as far as the drivers look at it. *)
Record Parameter_ : Type := mkParameter {
  param_name : string;
  value : Q;
  bounds_lb : Q;
  bounds_ub : Q
}.

Definition set_value (v : Q) (p : Parameter_) : Parameter_ :=
  {| param_name := param_name p; value := v;
     bounds_lb := bounds_lb p; bounds_ub := bounds_ub p |}.

(** What a driver does that can be seen from outside. *)
Inductive event : Type :=
| EPrint (line : string)
| EAngleInfo (angle_times : list angle_time) (contrasts : list Q)
| EContrastInfo (angle_times : list angle_time) (contrasts : list Q)
| EUnderlayerInfo (angle_times : list angle_time) (contrasts : list Q)
    (underlayers : list underlayer)
| EFromSample (angle_times : list angle_time)
| EPlot (xs ys : list Q) (label : string)
| EPlotTrisurf (xs ys zs : list Q)
| ESetLim (xlim ylim : Q * Q)
| EViewInit (elev azim : nat)
| ESavePlot (save_path filename : string).

(** The calls of a capability method among the events. *)
Definition is_evaluation (e : event) : bool :=
  match e with
  | EAngleInfo _ _ | EContrastInfo _ _ | EUnderlayerInfo _ _ _ | EFromSample _ => true
  | _ => false
  end.

Definition evaluations (l : list event) : list event := List.filter is_evaluation l.

(** The Python objects the drivers share with their caller: the list
    objects holding plans and contrasts, the Parameter objects, and the
    log of events. *)
Record world : Type := mkWorld {
  plans : list (list angle_time);
  contrast_lists : list (list Q);
  parameters : list Parameter_;
  log : list event
}.

Definition M (A : Type) : Type := world -> outcome A * world.

Definition ret {A} (a : A) : M A := fun w => (Ok a, w).

Definition bind {A B} (m : M A) (k : A -> M B) : M B :=
  fun w => match m w with
           | (Ok a, w') => k a w'
           | (Raise e, w') => (Raise e, w')
           end.

Definition raise {A} (e : exn) : M A := fun w => (Raise e, w).

Declare Scope M_scope.
Delimit Scope M_scope with M.
Notation "x <- y ; z" := (bind y (fun x => z))
  (at level 20, y at level 100, z at level 200, only parsing) : M_scope.
Notation "' x <- y ; z" := (bind y (fun x => z))
  (at level 20, x pattern, y at level 100, z at level 200, only parsing) : M_scope.
Notation "y ;; z" := (bind y (fun _ => z))
  (at level 100, z at level 200, only parsing, right associativity) : M_scope.
Local Open Scope M_scope.

Definition lift {A} (r : outcome A) : M A := fun w => (r, w).

Definition emit (e : event) : M unit :=
  fun w => (Ok tt, {| plans := plans w; contrast_lists := contrast_lists w;
                      parameters := parameters w; log := log w ++ [e] |}).

(** The [assert] statement. *)
Definition assert_ (b : bool) : M unit :=
  if b then ret tt else raise AssertionError.

Definition when (b : bool) (m : M unit) : M unit := if b then m else ret tt.

(** [print('>>> {0}/{1}'.format(i, n))] *)
Definition print_progress (i n : nat) : M unit :=
  emit (EPrint (">>> " +:+ pretty i +:+ "/" +:+ pretty n)).

(** A reference that names no object cannot arise in Python; the model
    stops with an error there. *)
Definition dangling {A} : M A := raise (OtherError "dangling reference").

Definition read_plan (l : loc) : M (list angle_time) :=
  fun w => match plans w !! l with
           | Some p => (Ok p, w)
           | None => dangling w
           end.

Definition new_plan (p : list angle_time) : M loc :=
  fun w => (Ok (length (plans w)),
            {| plans := plans w ++ [p]; contrast_lists := contrast_lists w;
               parameters := parameters w; log := log w |}).

Definition read_contrasts (l : loc) : M (list Q) :=
  fun w => match contrast_lists w !! l with
           | Some c => (Ok c, w)
           | None => dangling w
           end.

Definition new_contrasts (c : list Q) : M loc :=
  fun w => (Ok (length (contrast_lists w)),
            {| plans := plans w; contrast_lists := contrast_lists w ++ [c];
               parameters := parameters w; log := log w |}).

Definition read_parameter (l : loc) : M Parameter_ :=
  fun w => match parameters w !! l with
           | Some p => (Ok p, w)
           | None => dangling w
           end.

(** [param.value = v] *)
Definition write_value (l : loc) (v : Q) : M unit :=
  fun w => match parameters w !! l with
           | Some p =>
               (Ok tt, {| plans := plans w; contrast_lists := contrast_lists w;
                          parameters := <[l := set_value v p]> (parameters w);
                          log := log w |})
           | None => dangling w
           end.

(** A [for] loop that carries the local variables it updates. *)
Fixpoint for_each {A S} (xs : list A) (body : S -> A -> M S) (s : S) : M S :=
  match xs with
  | [] => ret s
  | x :: t => s' <- body s x ; for_each t body s'
  end.

(** [seq[i]] *)
Definition getitem {A} (xs : list A) (i : nat) : M A :=
  match xs !! i with
  | Some x => ret x
  | None => raise IndexError
  end.

(** [range(0, stop, step)] for the view angles of the 3D plots. *)
Definition range_step (count step : nat) : list nat :=
  List.map (fun k => (k * step)%nat) (seq 0 count).

(** [itertools.combinations(xs, 2)] *)
Fixpoint combinations2 {A} (xs : list A) : list (A * A) :=
  match xs with
  | [] => []
  | a :: t => List.map (fun b => (a, b)) t ++ combinations2 t
  end.

(** [np.linspace(start, stop, num)] in exact arithmetic: [num] samples
    [i * step + start], the last one replaced by [stop]. *)
Definition linspace (start stop : Q) (num : nat) : list Q :=
  let step := (stop - start) / inject_Z (Z.of_nat (num - 1)) in
  let y := List.map (fun i => inject_Z (Z.of_nat i) * step + start) (seq 0 num) in
  if (1 <? num)%nat then <[(num - 1)%nat := stop]> y else y.

Definition Qmax2 (a b : Q) : Q := if Qlt_le_dec a b then b else a.
Definition Qmin2 (a b : Q) : Q := if Qlt_le_dec b a then b else a.

(** [np.max] / [max] and [min] of a sequence; empty input raises. *)
Definition max_of (l : list Q) : M Q :=
  match l with
  | [] => raise (ValueError "zero-size array to reduction operation maximum which has no identity")
  | x :: t => ret (fold_left Qmax2 t x)
  end.

Definition min_of (l : list Q) : M Q :=
  match l with
  | [] => raise (ValueError "min() arg is an empty sequence")
  | x :: t => ret (fold_left Qmin2 t x)
  end.

Section Drivers.

(** The class [hogben.utils.Fisher] is not part of these sources: the
    drivers only read the property [min_eigenval] of the objects the
    sample hands back. *)
Context {Fisher : Type}.
Variable min_eigenval : Fisher -> Q.

(** Modelled from the spec: the classes [BaseSample], [VariableAngle],
    [VariableContrast] and [VariableUnderlayer] of [hogben.models.base],
    which is not part of these sources.  A sample has a name, is or is not
    an instance of each capability class, and has the capability methods
    [angle_info(plan, contrasts)], [contrast_info(plan, contrasts)] and
    [underlayer_info(plan, contrasts, underlayers)], each returning a
    Fisher object or raising. *)
Record BaseSample : Type := mkSample {
  name : string;
  VariableAngle : bool;
  VariableContrast : bool;
  VariableUnderlayer : bool;
  angle_info : list angle_time -> list Q -> outcome Fisher;
  contrast_info : list angle_time -> list Q -> outcome Fisher;
  underlayer_info : list angle_time -> list Q -> list underlayer -> outcome Fisher
}.

(** [Fisher.from_sample(sample, angle_times)], of the same missing class.
    It computes from the current values of the Parameter objects and, by
    the parameter-invariance contract of matrix construction, hands them
    back as it found them: the model gives it the Parameter store to read. *)
Variable from_sample : list Parameter_ -> BaseSample -> list angle_time -> outcome Fisher.

(** [sample.angle_info(new_angle_times, contrasts)]: both arguments are
    list objects. *)
Definition call_angle_info (sample : BaseSample) (angle_times contrasts : loc) : M Fisher :=
  p <- read_plan angle_times ;
  c <- read_contrasts contrasts ;
  emit (EAngleInfo p c) ;;
  lift (angle_info sample p c).

Definition call_contrast_info (sample : BaseSample) (angle_times : list angle_time)
    (contrasts : list Q) : M Fisher :=
  emit (EContrastInfo angle_times contrasts) ;;
  lift (contrast_info sample angle_times contrasts).

Definition call_underlayer_info (sample : BaseSample) (angle_times : list angle_time)
    (contrasts : list Q) (underlayers : list underlayer) : M Fisher :=
  emit (EUnderlayerInfo angle_times contrasts underlayers) ;;
  lift (underlayer_info sample angle_times contrasts underlayers).

Definition call_from_sample (sample : BaseSample) (angle_times : list angle_time) : M Fisher :=
  emit (EFromSample angle_times) ;;
  fun w => (from_sample (parameters w) sample angle_times, w).

(** [angle_choice], lines 26-86. *)
Definition angle_choice (sample : BaseSample) (initial_angle_times : loc)
    (angle_range : list Q) (points_new : Z) (time_new : Q)
    (save_path filename : string) (contrasts : option loc) : M Q :=
  assert_ (VariableAngle sample) ;;
  contrasts <- match contrasts with
               | None => new_contrasts []
               | Some c => ret c
               end ;
  min_eigs <- for_each (enumerate angle_range)
    (fun min_eigs '(i, angle_new) =>
       when (i mod 100 =? 0)%nat (print_progress i (length angle_range)) ;;
       initial <- read_plan initial_angle_times ;
       new_angle_times <- new_plan (initial ++ [(angle_new, points_new, time_new)]) ;
       fisher_new <- call_angle_info sample new_angle_times contrasts ;
       ret (min_eigs ++ [min_eigenval fisher_new]))
    [] ;
  emit (EPlot angle_range min_eigs EmptyString) ;;
  let save_path := os_path_join save_path (name sample) in
  emit (ESavePlot save_path ("angle_choice_" +:+ filename)) ;;
  maximum <- lift (argmax min_eigs) ;
  getitem angle_range maximum.

(** [scan_parameters], lines 89-129. *)
Definition scan_parameters (sample : BaseSample) (params : list loc)
    (angle_times : list angle_time) : M unit :=
  '(param_values, eigenval_list) <- for_each params
    (fun '(param_values, eigenval_list) param =>
       p <- read_parameter param ;
       let lb := bounds_lb p in
       let ub := bounds_ub p in
       let old_value := value p in
       let param_range := linspace lb ub 100 in
       eigenvals <- for_each param_range
         (fun eigenvals v =>
            write_value param v ;;
            fisher <- call_from_sample sample angle_times ;
            ret (eigenvals ++ [min_eigenval fisher]))
         [] ;
       write_value param old_value ;;
       ret (param_values ++ [param_range], eigenval_list ++ [eigenvals]))
    ([], []) ;
  ymax <- max_of (concat eigenval_list) ;
  for_each (enumerate params)
    (fun _ '(i, param) =>
       p <- read_parameter param ;
       xs <- getitem param_values i ;
       ys <- getitem eigenval_list i ;
       xmin <- min_of xs ;
       xmax <- max_of xs ;
       emit (ESetLim (xmin, xmax) (0, (105 # 100) * ymax)) ;;
       emit (EPlot xs ys (param_name p)))
    tt.

(** [contrast_choice_single], lines 219-270. *)
Definition contrast_choice_single (sample : BaseSample) (contrast_range : list Q)
    (initial_contrasts : loc) (angle_times : list angle_time)
    (save_path filename : string) : M Q :=
  assert_ (VariableContrast sample) ;;
  min_eigs <- for_each (enumerate contrast_range)
    (fun min_eigs '(i, new_contrast) =>
       when (i mod 100 =? 0)%nat (print_progress i (length contrast_range)) ;;
       initial <- read_contrasts initial_contrasts ;
       new_contrast <- new_contrasts (initial ++ [new_contrast]) ;
       new_contrast <- read_contrasts new_contrast ;
       fisher_new <- call_contrast_info sample angle_times new_contrast ;
       ret (min_eigs ++ [min_eigenval fisher_new]))
    [] ;
  emit (EPlot contrast_range min_eigs EmptyString) ;;
  let save_path := os_path_join save_path (name sample) in
  emit (ESavePlot save_path ("contrast_choice_single_" +:+ filename)) ;;
  maximum <- lift (argmax min_eigs) ;
  getitem contrast_range maximum.

(** [contrast_choice_double], lines 273-345.  [contrasts[:, 0]] needs a
    two-dimensional array, which [np.asarray] only builds from at least
    one pair. *)
Definition contrast_choice_double (sample : BaseSample) (contrast_range : list Q)
    (angle_times : list angle_time) (save_path : string) : M (Q * Q) :=
  assert_ (VariableContrast sample) ;;
  let contrasts := combinations2 contrast_range in
  min_eigs <- for_each (enumerate contrasts)
    (fun min_eigs '(i, contrast_pair) =>
       when (i mod 500 =? 0)%nat (print_progress i (length contrasts)) ;;
       fisher <- call_contrast_info sample angle_times
                   [fst contrast_pair; snd contrast_pair] ;
       ret (min_eigs ++ [min_eigenval fisher]))
    [] ;
  (if bool_decide (contrasts = []) then raise IndexError else ret tt) ;;
  let x := List.map fst contrasts ++ List.map snd contrasts in
  let y := List.map snd contrasts ++ List.map fst contrasts in
  let min_eigs := min_eigs ++ min_eigs in
  emit (EPlotTrisurf x y min_eigs) ;;
  let save_path := os_path_join save_path (name sample) in
  emit (ESavePlot save_path "contrast_choice_double") ;;
  let save_path := os_path_join save_path "contrast_choice_double" in
  for_each (range_step 6 60)
    (fun _ i =>
       emit (EViewInit 40 i) ;;
       emit (ESavePlot save_path ("contrast_choice_double_" +:+ pretty i)))
    tt ;;
  maximum <- lift (argmax min_eigs) ;
  a <- getitem x maximum ;
  b <- getitem y maximum ;
  ret (a, b).

(** [underlayer_choice], lines 348-428. *)
Definition underlayer_choice (sample : BaseSample) (thickness_range sld_range : list Q)
    (contrasts : list Q) (angle_times : list angle_time)
    (save_path filename : string) : M (Q * Q) :=
  assert_ (VariableUnderlayer sample) ;;
  let n := (length thickness_range * length sld_range)%nat in
  '(x, y, min_eigs) <- for_each (enumerate thickness_range)
    (fun acc '(i, thick) =>
       when (i mod 5 =? 0)%nat (print_progress (i * length sld_range) n) ;;
       for_each sld_range
         (fun '(x, y, min_eigs) sld =>
            fisher <- call_underlayer_info sample angle_times contrasts [(thick, sld)] ;
            ret (x ++ [thick], y ++ [sld], min_eigs ++ [min_eigenval fisher]))
         acc)
    ([], [], []) ;
  emit (EPlotTrisurf x y min_eigs) ;;
  let save_path := os_path_join save_path (name sample) in
  let filename :=
    "underlayer_choice"
    +:+ (if bool_decide (filename <> EmptyString) then "_" +:+ filename else EmptyString) in
  emit (ESavePlot save_path filename) ;;
  let save_path := os_path_join (os_path_join save_path "underlayer_choice") filename in
  for_each (range_step 36 10)
    (fun _ i =>
       emit (EViewInit 40 i) ;;
       emit (ESavePlot save_path (filename +:+ "_" +:+ pretty i)))
    tt ;;
  maximum <- lift (argmax min_eigs) ;
  a <- getitem x maximum ;
  b <- getitem y maximum ;
  ret (a, b).



End Drivers.

Arguments BaseSample Fisher : clear implicits.

End Visualise.
(** ** hogben/models/samples.py *)

Module Samples.

(** A parameter object of refnx or bumps: its value, whether it is
    fitted, and the bounds placed on it ([None]: the default, unbounded). *)
Record Param : Type := mkParam {
  value : Q;
  vary : bool;
  bounds : option (Q * Q)
}.

(** [Parameter(v)] / [possibly_create_parameter(v)] on a number. *)
Definition fixed (v : Q) : Param := {| value := v; vary := false; bounds := None |}.

(** [p.setp(vary=True, bounds=b)] *)
Definition setp (b : Q * Q) (p : Param) : Param :=
  {| value := value p; vary := true; bounds := Some b |}.

(** *** refnx objects *)

(** [refnx.reflect.SLD]: a scatterer with a real and an imaginary part. *)
Record SLD : Type := mkSLD {
  sld_name : string;
  real : Param;
  imag : Param
}.

(** The classes of slab this module defines on top of
    [refnx.reflect.structure.Slab], with the attributes they add. *)
Inductive slab_class : Type :=
| PlainSlab
| UnderLayerClass (underlayer : bool)
| MagneticLayerClass (SL density mag : Q) (underlayer : bool).

(** A slab component: [component.name], [component.sld], [component.thick],
    [component.rough]. *)
Record Slab : Type := mkSlab {
  name : string;
  sld : SLD;
  thick : Param;
  rough : Param;
  class : slab_class
}.

(** [refnx.reflect.Structure]: a named list of components. *)
Record Structure : Type := mkStructure {
  structure_name : string;
  data : list Slab
}.

(** [SLD(value, name=name)] on a number. *)
Definition SLD_ (v : Q) (nm : string) : SLD :=
  {| sld_name := nm; real := fixed v; imag := fixed 0 |}.

(** [scatterer(thick, rough)]: the slab of a scatterer, named after it.
    A Parameter passed for [thick] or [rough] is kept as it is. *)
Definition slab_of (s : SLD) (th ro : Param) : Slab :=
  {| name := sld_name s; sld := s; thick := th; rough := ro; class := PlainSlab |}.

(** [UnderLayer(sld, thick, rough, name)], lines 35-38. *)
Definition UnderLayer (sld_v thick_v rough_v : Q) (nm : string) : Slab :=
  {| name := nm; sld := SLD_ sld_v EmptyString; thick := fixed thick_v;
     rough := fixed rough_v; class := UnderLayerClass true |}.

(** [MagneticLayer(SL, density, mag, thick, rough, underlayer, name)],
    lines 40-56: the slab is built with [sld=self.SLD_n]. *)
Definition MagneticLayer (SL density mag thick_v rough_v : Q) (underlayer : bool)
    (nm : string) : Slab :=
  {| name := nm; sld := SLD_ (density * SL) EmptyString; thick := fixed thick_v;
     rough := fixed rough_v; class := MagneticLayerClass SL density mag underlayer |}.

Definition isinstance_MagneticLayer (layer : Slab) : bool :=
  match class layer with
  | MagneticLayerClass _ _ _ _ => true
  | _ => false
  end.

(** The properties [SLD_n], [SLD_m], [spin_up] and [spin_down] of a
    [MagneticLayer], lines 58-73.  On other slabs the attribute is
    missing. *)
Definition SLD_n (layer : Slab) : outcome Q :=
  match class layer with
  | MagneticLayerClass SL density _ _ => Ok (density * SL)
  | _ => Raise (AttributeError "SLD_n")
  end.

Definition SLD_m (layer : Slab) : outcome Q :=
  match class layer with
  | MagneticLayerClass _ density mag _ => Ok ((1 # 10) * density * mag)
  | _ => Raise (AttributeError "SLD_m")
  end.

Definition spin_up (layer : Slab) : outcome Slab :=
  match class layer with
  | MagneticLayerClass _ _ _ _ =>
      obind (SLD_n layer) (fun n =>
      obind (SLD_m layer) (fun m =>
      let SLD_value := n + m in
      Ok (slab_of (SLD_ SLD_value "spin_up") (thick layer) (rough layer))))
  | _ => Raise (AttributeError "spin_up")
  end.

Definition spin_down (layer : Slab) : outcome Slab :=
  match class layer with
  | MagneticLayerClass _ _ _ _ =>
      obind (SLD_n layer) (fun n =>
      obind (SLD_m layer) (fun m =>
      let SLD_value := n - m in
      Ok (slab_of (SLD_ SLD_value "spin_down") (thick layer) (rough layer))))
  | _ => Raise (AttributeError "spin_down")
  end.

(** [structure.copy()]: [UserList.copy] builds a new [Structure] from the
    components; the new object has the default (empty) name. *)
Definition Structure_copy (s : Structure) : Structure :=
  {| structure_name := EmptyString; data := data s |}.

(** [a | b | ...] on refnx slabs, as the sample factories use it. *)
Definition Structure_of (components : list Slab) (nm : string) : Structure :=
  {| structure_name := nm; data := components |}.

(** *** Refl1D objects *)

(** [refl1d.material.SLD] *)
Record Material : Type := mkMaterial {
  material_name : string;
  rho : Param;
  irho : Param
}.

(** [refl1d.model.Slab]: [material(thickness, interface)], named after
    its material. *)
Record Layer : Type := mkLayer {
  layer_name : string;
  material : Material;
  thickness : Param;
  interface : Param
}.

(** [refl1d.model.Stack] *)
Record Stack : Type := mkStack {
  stack_name : string;
  layers : list Layer
}.

Definition Material_ (rho_v irho_v : Q) (nm : string) : Material :=
  {| material_name := nm; rho := fixed rho_v; irho := fixed irho_v |}.

Definition layer_of (m : Material) (th ro : Q) : Layer :=
  {| layer_name := material_name m; material := m;
     thickness := fixed th; interface := fixed ro |}.

(** *** What [Sample.structure] can hold *)

Inductive structure : Type :=
| RefnxStructure (s : Structure)
| RefnxScatterer (m : SLD)
| Refl1dStack (s : Stack)
| Refl1dMaterial (m : Material)
| OtherObject (nm : option string).

Definition isinstance_refnx_Structure (s : structure) : bool :=
  match s with RefnxStructure _ => true | _ => false end.

Definition isinstance_refl1d_Stack (s : structure) : bool :=
  match s with Refl1dStack _ => true | _ => false end.

(** [structure.name] *)
Definition get_name (s : structure) : outcome string :=
  match s with
  | RefnxStructure s => Ok (structure_name s)
  | RefnxScatterer m => Ok (sld_name m)
  | Refl1dStack s => Ok (stack_name s)
  | Refl1dMaterial m => Ok (material_name m)
  | OtherObject (Some nm) => Ok nm
  | OtherObject None => Raise (AttributeError "name")
  end.

(** [structure.name = nm] *)
Definition set_name (nm : string) (s : structure) : structure :=
  match s with
  | RefnxStructure s => RefnxStructure {| structure_name := nm; data := data s |}
  | RefnxScatterer m => RefnxScatterer {| sld_name := nm; real := real m; imag := imag m |}
  | Refl1dStack s => Refl1dStack {| stack_name := nm; layers := layers s |}
  | Refl1dMaterial m =>
      Refl1dMaterial {| material_name := nm; rho := rho m; irho := irho m |}
  | OtherObject _ => OtherObject (Some nm)
  end.

(** [layer | structure] in Refl1D: a new stack holding the layer followed
    by the layers of a stack, or by the slab of a bare material. *)
Definition refl1d_or (layer : Layer) (other : structure) : outcome structure :=
  match other with
  | Refl1dStack s => Ok (Refl1dStack {| stack_name := "Stack"; layers := layer :: layers s |})
  | Refl1dMaterial m =>
      Ok (Refl1dStack {| stack_name := "Stack"; layers := [layer; layer_of m 0 0] |})
  | _ => Raise (OtherError "TypeError")
  end.

(** [structure |= slab] in refnx: a structure is extended in place; a bare
    scatterer first becomes a structure holding its own slab. *)
Definition refnx_ior (s : structure) (slab : Slab) : outcome structure :=
  match s with
  | RefnxStructure s =>
      Ok (RefnxStructure {| structure_name := structure_name s; data := data s ++ [slab] |})
  | RefnxScatterer m =>
      Ok (RefnxStructure {| structure_name := EmptyString;
                            data := [slab_of m (fixed 0) (fixed 0); slab] |})
  | _ => Raise (OtherError "TypeError")
  end.

(** [xs[1:-1]] *)
Definition inner {A} (xs : list A) : list A := take (length xs - 2) (drop 1 xs).

(** The list [xs] with [f] applied to the elements of [xs[1:-1]]. *)
Definition map_inner {A} (f : A -> A) (xs : list A) : list A :=
  if (length xs <? 2)%nat then xs
  else take 1 xs ++ List.map f (inner xs) ++ drop (length xs - 1) xs.

(** Loop over a list in the outcome monad, carrying the updated locals. *)
Fixpoint ofold {A S} (xs : list A) (body : S -> A -> outcome S) (s : S) : outcome S :=
  match xs with
  | [] => Ok s
  | x :: t => obind (body s x) (ofold t body)
  end.

(** The attributes of a [Sample] object.  [params] is [None] while the
    attribute has not been assigned. *)
Record Sample : Type := mkSample {
  structure_ : structure;
  sample_name : string;
  scale : Q;
  bkg : Q;
  dq : Q;
  params : option (list Param)
}.

Definition set_structure (s : structure) (self : Sample) : Sample :=
  {| structure_ := s; sample_name := sample_name self; scale := scale self;
     bkg := bkg self; dq := dq self; params := params self |}.

(** [Sample.__init__], lines 87-100.  The assignment of [self.params] is
    commented out in the source, so the attribute stays unset. *)
Definition Sample_init (s : structure) (settings : gmap string Q) : outcome Sample :=
  obind (get_name s) (fun nm =>
  Ok {| structure_ := s;
        sample_name := nm;
        scale := default 1 (settings !! "scale"%string);
        bkg := default (5 # 1000000) (settings !! "bkg"%string);
        dq := default (2 # 100) (settings !! "dq"%string);
        params := None |}).

(** [self.params] *)
Definition get_params (self : Sample) : outcome (list Param) :=
  match params self with
  | Some ps => Ok ps
  | None => Raise (AttributeError "params")
  end.

(** [Sample.get_structures], lines 102-118.  Only a refnx structure has
    [copy]. *)
Definition get_structures (self : Sample) : outcome (list structure) :=
  match structure_ self with
  | RefnxStructure s =>
      let structures : list structure := [] in
      let spin_up_structure := Structure_copy s in
      let spin_down_structure := Structure_copy s in
      obind
        (ofold (enumerate (data s))
           (fun '(up, down) '(i, layer) =>
              if isinstance_MagneticLayer layer then
                obind (spin_up layer) (fun u =>
                obind (spin_down layer) (fun d =>
                Ok ({| structure_name := structure_name up; data := <[i := u]> (data up) |},
                    {| structure_name := structure_name down;
                       data := <[i := d]> (data down) |})))
              else Ok (up, down))
           (spin_up_structure, spin_down_structure))
        (fun '(spin_up_structure, spin_down_structure) =>
           let structures :=
             structures ++ [RefnxStructure spin_up_structure;
                            RefnxStructure spin_down_structure] in
           let structures :=
             if (length structures =? 0)%nat then [structure_ self] else structures in
           Ok structures)
  | _ => Raise (AttributeError "copy")
  end.

(** The property [Sample.num_underlayers], lines 125-131: the layers
    that have an attribute [underlayer] which is true.  Plain refnx slabs
    and Refl1D layers have no such attribute; an object that is not a
    sequence of layers cannot be iterated over. *)
Definition num_underlayers (self : Sample) : outcome nat :=
  match structure_ self with
  | RefnxStructure s =>
      Ok (fold_left
            (fun num layer =>
               match class layer with
               | PlainSlab => num
               | UnderLayerClass underlayer
               | MagneticLayerClass _ _ _ underlayer =>
                   (num + (if underlayer then 1 else 0))%nat
               end)
            (data s) 0%nat)
  | Refl1dStack s => Ok (fold_left (fun num _ => num) (layers s) 0%nat)
  | _ => Raise (OtherError "TypeError")
  end.

(** [Sample.to_refl1d], lines 360-380. *)
Definition to_refl1d (self : Sample) : outcome Sample :=
  match structure_ self with
  | RefnxStructure s =>
      obind
        (ofold (drop 1 (data s))
           (fun acc component =>
              let nm := name component in
              let sld_v := value (real (sld component)) in
              let sld_imag := value (imag (sld component)) in
              let thick_v := value (thick component) in
              let rough_v := value (rough component) in
              let layer := layer_of (Material_ sld_v sld_imag nm) thick_v rough_v in
              refl1d_or layer acc)
           (Refl1dMaterial (Material_ 0 0 "Air")))
        (fun acc => Ok (set_structure (set_name (structure_name s) acc) self))
  | _ => Raise AssertionError
  end.

(** [Sample.to_refnx], lines 382-403. *)
Definition to_refnx (self : Sample) : outcome Sample :=
  match structure_ self with
  | Refl1dStack s =>
      obind
        (ofold (drop 1 (reverse (layers s)))
           (fun acc component =>
              let nm := layer_name component in
              let sld_v := fixed (value (rho (material component))) in
              let sld_imag := fixed (value (irho (material component))) in
              let thick_v := value (thickness component) in
              let rough_v := value (interface component) in
              refnx_ior acc
                (slab_of {| sld_name := nm; real := sld_v; imag := sld_imag |}
                   (fixed thick_v) (fixed rough_v)))
           (RefnxScatterer (SLD_ 0 "Air")))
        (fun acc => Ok (set_structure (set_name (stack_name s) acc) self))
  | _ => Raise AssertionError
  end.

Section Collaborators.

(** What the module imports from [hogben.simulate], [hogben.utils],
    refnx, Refl1D, bumps and numpy and only calls. *)
Context {Model Fisher : Type}.
Variable simulate :
  structure -> list Visualise.angle_time -> outcome (Model * list (Q * Q * Q * Q)).
Variable Fisher_ : list (list Q) -> list Param -> list (list Q) -> list Model -> Fisher.
Variable ReflectModel : Structure -> Q -> Q -> Q -> Model.
Variable refl1d_experiment : Stack -> list Q -> Q -> Q -> Q -> outcome Model.
Variable reflectivity : list Q -> Model -> outcome (list Q).
Variable refnx_sld_profile : Structure -> outcome (list Q * list Q).
Variable smooth_profile : Model -> outcome (list Q * list Q * list Q).
Variable geomspace : Q -> Q -> Z -> outcome (list Q).
Variable pmp : Q -> Param -> Param.

(** [Sample.__vary_structure], lines 133-183.  The parameters are varied
    in place; the model hands back the structure with the varied
    parameters next to the list of them. *)
Definition vary_structure (s : structure) (bound_size : Q)
    : outcome (structure * list Param) :=
  match s with
  | RefnxStructure st =>
      let vary_sld (component : Slab) :=
        let sld_ := real (sld component) in
        let sld_bounds := (value sld_ * (1 - bound_size), value sld_ * (1 + bound_size)) in
        setp sld_bounds sld_ in
      let vary_thick (component : Slab) :=
        let thick_ := thick component in
        let thick_bounds :=
          (value thick_ * (1 - bound_size), value thick_ * (1 + bound_size)) in
        setp thick_bounds thick_ in
      let vary_component (component : Slab) :=
        {| name := name component;
           sld := {| sld_name := sld_name (sld component);
                     real := vary_sld component; imag := imag (sld component) |};
           thick := vary_thick component; rough := rough component;
           class := class component |} in
      Ok (RefnxStructure {| structure_name := structure_name st;
                            data := map_inner vary_component (data st) |},
          flat_map (fun component => [vary_sld component; vary_thick component])
            (inner (data st)))
  | Refl1dStack st =>
      let vary_sld (component : Layer) := pmp (bound_size * 100) (rho (material component)) in
      let vary_thick (component : Layer) := pmp (bound_size * 100) (thickness component) in
      let vary_component (component : Layer) :=
        {| layer_name := layer_name component;
           material := {| material_name := material_name (material component);
                          rho := vary_sld component; irho := irho (material component) |};
           thickness := vary_thick component; interface := interface component |} in
      Ok (Refl1dStack {| stack_name := stack_name st;
                         layers := map_inner vary_component (layers st) |},
          flat_map (fun component => [vary_sld component; vary_thick component])
            (inner (layers st)))
  | _ => Raise (RuntimeError "invalid structure given")
  end.

(** [Sample.angle_info], lines 185-199. *)
Definition angle_info (self : Sample) (angle_times : list Visualise.angle_time)
    (contrasts : option (list Q)) : outcome Fisher :=
  obind (simulate (structure_ self) angle_times) (fun '(model, data) =>
  let qs := [List.map (fun '(q, _, _, _) => q) data] in
  let counts := [List.map (fun '(_, _, _, c) => c) data] in
  let models := [model] in
  obind (get_params self) (fun ps =>
  Ok (Fisher_ qs ps counts models))).

(** [Sample._get_sld_profile], lines 228-248. *)
Definition _get_sld_profile (self : Sample) : outcome (list Q * list Q) :=
  match structure_ self with
  | RefnxStructure s => refnx_sld_profile s
  | Refl1dStack s =>
      obind (geomspace (5 # 1000) (3 # 10) 500) (fun q =>
      let '(scale, bkg, dq) := (1, 1 # 1000000, 2) in
      obind (refl1d_experiment s q scale bkg dq) (fun experiment =>
      obind (smooth_profile experiment) (fun '(z, slds, _) =>
      Ok (z, slds))))
  | _ => Raise (RuntimeError "invalid structure given")
  end.

(** [Sample._get_reflectivity_profile], lines 292-318.  The Q grid is
    built before the structure is looked at. *)
Definition _get_reflectivity_profile (self : Sample) (q_min q_max : Q) (points : Z)
    (scale bkg dq : Q) : outcome (list Q * list Q) :=
  obind (geomspace q_min q_max points) (fun q =>
  obind
    match structure_ self with
    | RefnxStructure s => Ok (ReflectModel s scale bkg dq)
    | Refl1dStack s => refl1d_experiment s q scale bkg dq
    | _ => Raise (RuntimeError "invalid structure given")
    end
    (fun model =>
  obind (reflectivity q model) (fun r =>
  Ok (q, r)))).

(** [Sample.sld_profile], lines 201-226, and [Sample.reflectivity_profile],
    lines 250-290: compute the profile, plot it, save the figure. *)
Definition sld_profile (self : Sample) (save_path : string) : Visualise.M unit :=
  Visualise.bind (Visualise.lift (_get_sld_profile self)) (fun '(z, slds) =>
  Visualise.bind (Visualise.emit (Visualise.EPlot z slds (sample_name self))) (fun _ =>
  let save_path := os_path_join save_path (sample_name self) in
  Visualise.emit (Visualise.ESavePlot save_path "sld_profile"))).

Definition reflectivity_profile (self : Sample) (save_path : string) (q_min q_max : Q)
    (points : Z) (scale bkg dq : Q) : Visualise.M unit :=
  Visualise.bind
    (Visualise.lift (_get_reflectivity_profile self q_min q_max points scale bkg dq))
    (fun '(q, r) =>
  Visualise.bind (Visualise.emit (Visualise.EPlot q r EmptyString)) (fun _ =>
  let save_path := os_path_join save_path (sample_name self) in
  Visualise.emit (Visualise.ESavePlot save_path "reflectivity_profile"))).

(** What [nested_sampling] calls: [refnx.reflect.ReflectDataset],
    [bumps.fitproblem.FitProblem], and [Sampler(objective).sample]. *)
Context {Dataset Objective Figure : Type}.
Variable ReflectDataset : list Q -> list Q -> list Q -> outcome Dataset.
Variable FitProblem : Model -> outcome Objective.
Variable Sampler_sample : Objective -> bool -> outcome Figure.

(** [Sample.nested_sampling], lines 320-358.  The refnx branch builds the
    dataset and then looks up [refnx.anaylsis], an attribute the module
    [refnx] does not have. *)
Definition nested_sampling (self : Sample) (angle_times : list Visualise.angle_time)
    (save_path filename : string) (dynamic : bool) : Visualise.M unit :=
  Visualise.bind (Visualise.lift (simulate (structure_ self) angle_times))
    (fun '(model, data) =>
  Visualise.bind
    match structure_ self with
    | RefnxStructure _ =>
        Visualise.bind
          (Visualise.lift
             (ReflectDataset (List.map (fun '(q, _, _, _) => q) data)
                (List.map (fun '(_, r, _, _) => r) data)
                (List.map (fun '(_, _, dr, _) => dr) data)))
          (fun dataset => Visualise.raise (AttributeError "anaylsis"))
    | Refl1dStack _ => Visualise.lift (FitProblem model)
    | _ => Visualise.raise (RuntimeError "invalid structure given")
    end
    (fun objective =>
  Visualise.bind (Visualise.lift (Sampler_sample objective dynamic)) (fun fig =>
  let save_path := os_path_join save_path (sample_name self) in
  Visualise.emit (Visualise.ESavePlot save_path (filename +:+ "_nested_sampling"))))).

End Collaborators.

(** [simple_sample], lines 406-420, and the fixture of the tests. *)
Definition simple_sample : outcome Sample :=
  let air := slab_of (SLD_ 0 "Air") (fixed 0) (fixed 0) in
  let layer1 := slab_of (SLD_ 4 "Layer 1") (fixed 100) (fixed 2) in
  let layer2 := slab_of (SLD_ 8 "Layer 2") (fixed 150) (fixed 2) in
  let substrate := slab_of (SLD_ (2047 # 1000) "Substrate") (fixed 0) (fixed 2) in
  Sample_init (RefnxStructure (Structure_of [air; layer1; layer2; substrate] "simple_sample")) ∅.

End Samples.
(** ** Frame conditions on the drivers *)

Module Frame.
Import Visualise.

(** [m] relates the world it starts in to the world it stops in by [P],
    whatever the outcome. *)
Definition preserves {A} (P : world -> world -> Prop) (m : M A) : Prop :=
  forall w r w', m w = (r, w') -> P w w'.

(** The same, for the runs of [m] that return. *)
Definition preserves_ok {A} (P : world -> world -> Prop) (m : M A) : Prop :=
  forall w a w', m w = (Ok a, w') -> P w w'.

(** No Parameter object has changed. *)
Definition same_parameters (w w' : world) : Prop := parameters w' = parameters w.

(** The Parameter objects of [w] are those of [sigma], except that the
    value of the Parameter [p] at [l] may have been overwritten. *)
Definition value_written (sigma : list Parameter_) (l : loc) (p : Parameter_)
    (w : world) : Prop :=
  exists v, parameters w = <[l := set_value v p]> sigma.

(** No figure has been saved between [w] and [w']. *)
Definition saves_nothing (w w' : world) : Prop :=
  forall save_path filename,
    In (ESavePlot save_path filename) (log w') -> In (ESavePlot save_path filename) (log w).

End Frame.
(** ** Concrete samples and worlds *)

Module Examples.
Import Visualise.

(** A sample whose Fisher object is just its minimum eigenvalue.  The
    angle axis peaks at 2.5 degrees; the contrast axis rewards the sum of
    the contrasts; the underlayer axis rewards thick layers of low SLD. *)
Definition toy_sample : BaseSample Q :=
  {| name := "toy";
     VariableAngle := true;
     VariableContrast := true;
     VariableUnderlayer := true;
     angle_info := fun angle_times _ =>
       match last angle_times with
       | Some (angle, _, _) => Ok ((angle - 2) * (3 - angle))
       | None => Raise (ValueError "empty plan")
       end;
     contrast_info := fun _ contrasts => Ok (fold_right Qplus 0 contrasts);
     underlayer_info := fun _ _ underlayers =>
       match underlayers with
       | [(thick, sld)] => Ok (thick - sld * sld)
       | _ => Raise (ValueError "one underlayer expected")
       end |}.

(** A sample that is an instance of none of the capability classes. *)
Definition plain_sample : BaseSample Q :=
  {| name := "plain";
     VariableAngle := false;
     VariableContrast := false;
     VariableUnderlayer := false;
     angle_info := fun _ _ => Raise (AttributeError "angle_info");
     contrast_info := fun _ _ => Raise (AttributeError "contrast_info");
     underlayer_info := fun _ _ _ => Raise (AttributeError "underlayer_info") |}.

(** A sample whose simulation breaks down above 2.7 degrees. *)
Definition fragile_sample : BaseSample Q :=
  {| name := "fragile";
     VariableAngle := true;
     VariableContrast := false;
     VariableUnderlayer := false;
     angle_info := fun angle_times _ =>
       match last angle_times with
       | Some (angle, _, _) =>
           if Qlt_le_dec (27 # 10) angle then Raise (OtherError "simulation failed")
           else Ok ((angle - 2) * (3 - angle))
       | None => Raise (ValueError "empty plan")
       end;
     contrast_info := fun _ _ => Raise (AttributeError "contrast_info");
     underlayer_info := fun _ _ _ => Raise (AttributeError "underlayer_info") |}.

(** One plan with a single measured angle, one list of measured contrasts
    and two Parameters. *)
Definition toy_world : world :=
  {| plans := [[(7 # 10, 100%Z, 1000)]];
     contrast_lists := [[6]];
     parameters := [mkParameter "thick" 100 80 120; mkParameter "sld" 4 3 5];
     log := [] |}.

(** [Fisher.from_sample] for the toy sample: the information grows with
    the current value of the first Parameter. *)
Definition toy_from_sample (sigma : list Parameter_) (_ : BaseSample Q)
    (_ : list angle_time) : outcome Q :=
  match sigma !! 0%nat with
  | Some p => Ok (value p)
  | None => Raise (ValueError "no parameter")
  end.

(** A collaborator that always answers: the information is the sum of
    the current Parameter values. *)
Definition sum_from_sample (sigma : list Parameter_) (_ : BaseSample Q)
    (_ : list angle_time) : outcome Q :=
  Ok (fold_right (fun p total => value p + total) 0 sigma).

(** A collaborator that gives up once the first Parameter exceeds 110. *)
Definition fragile_from_sample (sigma : list Parameter_) (_ : BaseSample Q)
    (_ : list angle_time) : outcome Q :=
  match sigma !! 0%nat with
  | Some p =>
      if Qlt_le_dec 110 (value p) then Raise (OtherError "simulation failed")
      else Ok (value p)
  | None => Raise (ValueError "no parameter")
  end.

Import Samples.

Definition air : Slab := slab_of (SLD_ 0 "Air") (fixed 0) (fixed 0).

(** The structure of [simple_sample], wrapped in a [Sample] whose
    [params] have been assigned by hand. *)
Definition four_layer_sample : Sample :=
  {| structure_ :=
       RefnxStructure
         (Structure_of
            [air;
             slab_of (SLD_ 4 "Layer 1") (fixed 100) (fixed 2);
             slab_of (SLD_ 8 "Layer 2") (fixed 150) (fixed 2);
             slab_of (SLD_ (2047 # 1000) "Substrate") (fixed 0) (fixed 2)]
            "simple_sample");
     sample_name := "simple_sample";
     scale := 1; bkg := 5 # 1000000; dq := 2 # 100;
     params := Some [] |}.

(** A refnx structure that holds a single component. *)
Definition air_only_sample : Sample :=
  {| structure_ := RefnxStructure (Structure_of [air] "air_only");
     sample_name := "air_only";
     scale := 1; bkg := 5 # 1000000; dq := 2 # 100;
     params := None |}.

(** A sample with a magnetic layer on an underlayer. *)
Definition magnetic_sample : Sample :=
  {| structure_ :=
       RefnxStructure
         (Structure_of
            [air; MagneticLayer 1 5 6 10 6 true "magnetic_layer";
             UnderLayer 6 50 0 "underlayer"]
            "magnetic");
     sample_name := "magnetic";
     scale := 1; bkg := 5 # 1000000; dq := 2 # 100;
     params := None |}.

(** A [Mock] standing in for a sample: its structure is of no known type. *)
Definition mock_sample : Sample :=
  {| structure_ := OtherObject None;
     sample_name := "mock";
     scale := 1; bkg := 5 # 1000000; dq := 2 # 100;
     params := None |}.

(** A film on silicon as Refl1D writes it: substrate first, air last. *)
Definition refl1d_stack : Stack :=
  {| stack_name := "film";
     layers := [layer_of (Material_ (2047 # 1000) 0 "Si") 0 3;
                {| layer_name := "Film";
                   material := {| material_name := "Ni";
                                  rho := {| value := 94 # 10; vary := true;
                                            bounds := Some (8, 10) |};
                                  irho := fixed 0 |};
                   thickness := fixed 120; interface := fixed 5 |};
                layer_of (Material_ (1 # 10) 0 "Vapour") 0 0] |}.

Definition refl1d_sample : Sample :=
  {| structure_ := Refl1dStack refl1d_stack;
     sample_name := "film";
     scale := 1; bkg := 5 # 1000000; dq := 2 # 100;
     params := None |}.

(** A Refl1D stack that holds a single layer. *)
Definition short_refl1d_sample : Sample :=
  {| structure_ :=
       Refl1dStack {| stack_name := "bare"; layers := [layer_of (Material_ 2 0 "Si") 0 3] |};
     sample_name := "bare";
     scale := 1; bkg := 5 # 1000000; dq := 2 # 100;
     params := None |}.

(** Stand-ins for the collaborators. *)
Definition toy_geomspace (q_min q_max : Q) (points : Z) : outcome (list Q) :=
  if Qeq_bool q_min 0 || Qeq_bool q_max 0 then
    Raise (ValueError "Geometric sequence cannot include zero")
  else Ok [q_min; q_max].

Definition toy_simulate (_ : structure) (angle_times : list angle_time)
    : outcome (unit * list (Q * Q * Q * Q)) :=
  Ok (tt, List.map (fun '(angle, _, time) => (angle, 1, 1 # 10, time)) angle_times).

End Examples.
(** *** Facts about [argmax] *)

Lemma argmax_from_spec (l : list Q) :
  forall best bv i,
    (argmax_from best bv i l = best /\ (forall j x, l !! j = Some x -> x <= bv))
    \/ (exists j v, argmax_from best bv i l = (i + j)%nat /\ l !! j = Some v /\
          bv < v /\
          (forall j' x, l !! j' = Some x -> x <= v) /\
          (forall j' x, (j' < j)%nat -> l !! j' = Some x -> x < v)).
Proof.
  induction l as [|y t IH]; intros best bv i; simpl.
  - left. split; [reflexivity|]. intros j x Hj. destruct j; discriminate.
  - destruct (Qlt_le_dec bv y) as [Hlt|Hle].
    + right.
      destruct (IH i y (S i)) as [[Hk Hall]|(j & v & Hk & Hj & Hv & Hall & Hbefore)].
      * exists 0%nat, y. rewrite Hk. repeat split.
        -- lia.
        -- exact Hlt.
        -- intros [|j'] x Hx; simpl in Hx.
           ++ injection Hx as <-. apply Qle_refl.
           ++ eapply Hall; eauto.
        -- intros j' x Hlt'. lia.
      * exists (S j), v. rewrite Hk. repeat split.
        -- lia.
        -- exact Hj.
        -- eapply Qlt_trans; eauto.
        -- intros [|j'] x Hx; simpl in Hx.
           ++ injection Hx as <-. apply Qlt_le_weak, Hv.
           ++ eapply Hall; eauto.
        -- intros [|j'] x Hlt' Hx; simpl in Hx.
           ++ injection Hx as <-. exact Hv.
           ++ eapply Hbefore; [|eauto]. lia.
    + destruct (IH best bv (S i))
        as [[Hk Hall]|(j & v & Hk & Hj & Hv & Hall & Hbefore)].
      * left. split; [exact Hk|].
        intros [|j'] x Hx; simpl in Hx.
        -- injection Hx as <-. exact Hle.
        -- eapply Hall; eauto.
      * right. exists (S j), v. rewrite Hk. repeat split.
        -- lia.
        -- exact Hj.
        -- exact Hv.
        -- intros [|j'] x Hx; simpl in Hx.
           ++ injection Hx as <-. apply Qlt_le_weak. eapply Qle_lt_trans; eauto.
           ++ eapply Hall; eauto.
        -- intros [|j'] x Hlt' Hx; simpl in Hx.
           ++ injection Hx as <-. eapply Qle_lt_trans; eauto.
           ++ eapply Hbefore; [|eauto]. lia.
Qed.

(** On a non-empty list [argmax] returns the index of the first maximum. *)
Lemma argmax_first_max (l : list Q) :
  l <> [] ->
  exists k v, argmax l = Ok k /\ l !! k = Some v /\
    (forall j x, l !! j = Some x -> x <= v) /\
    (forall j x, (j < k)%nat -> l !! j = Some x -> x < v).
Proof.
  destruct l as [|y t]; [congruence|]. intros _. simpl.
  destruct (argmax_from_spec t 0%nat y 1%nat)
    as [[Hk Hall]|(j & v & Hk & Hj & Hv & Hall & Hbefore)].
  - exists 0%nat, y. rewrite Hk. repeat split.
    + intros [|j] x Hx; simpl in Hx.
      * injection Hx as <-. apply Qle_refl.
      * eapply Hall; eauto.
    + intros j x Hlt. lia.
  - exists (S j), v. rewrite Hk. repeat split.
    + exact Hj.
    + intros [|j'] x Hx; simpl in Hx.
      * injection Hx as <-. apply Qlt_le_weak, Hv.
      * eapply Hall; eauto.
    + intros [|j'] x Hlt' Hx; simpl in Hx.
      * injection Hx as <-. exact Hv.
      * eapply Hbefore; [|eauto]. lia.
Qed.

Example argmax_first_of_ties : argmax [1; 3; 3; 2] = Ok 1%nat.
Proof. reflexivity. Qed.

Example argmax_empty : is_ok (argmax []) = false.
Proof. reflexivity. Qed.

(** ** Running the drivers: the monad *)

Import Visualise.
Local Open Scope M_scope.

Lemma bind_ok {A B} (m : M A) (k : A -> M B) w a w' :
  m w = (Ok a, w') -> bind m k w = k a w'.
Proof. intros H. unfold bind. rewrite H. reflexivity. Qed.

Lemma bind_raise {A B} (m : M A) (k : A -> M B) w e w' :
  m w = (Raise e, w') -> bind m k w = (Raise e, w').
Proof. intros H. unfold bind. rewrite H. reflexivity. Qed.

Lemma read_plan_ok l w p : plans w !! l = Some p -> read_plan l w = (Ok p, w).
Proof. intros H. unfold read_plan. rewrite H. reflexivity. Qed.

Lemma read_contrasts_ok l w c :
  contrast_lists w !! l = Some c -> read_contrasts l w = (Ok c, w).
Proof. intros H. unfold read_contrasts. rewrite H. reflexivity. Qed.

Lemma evaluations_app l1 l2 : evaluations (l1 ++ l2) = evaluations l1 ++ evaluations l2.
Proof. apply List.filter_app. Qed.

(** A progress line changes nothing but the log, and is no evaluation. *)
Lemma when_print_progress cond i n w :
  exists w', when cond (print_progress i n) w = (Ok tt, w')
    /\ plans w' = plans w /\ contrast_lists w' = contrast_lists w
    /\ parameters w' = parameters w
    /\ evaluations (log w') = evaluations (log w).
Proof.
  destruct cond; simpl.
  - eexists. split; [reflexivity|]. simpl. repeat split.
    rewrite evaluations_app. simpl. apply app_nil_r.
  - exists w. repeat split.
Qed.


Lemma lookup_map {A B} (f : A -> B) (l : list A) (i : nat) :
  List.map f l !! i = option_map f (l !! i).
Proof.
  revert i. induction l as [|x t IH]; intros [|i]; simpl; auto.
Qed.

(** ** [angle_choice] *)

Section AngleChoice.

Context {Fisher : Type} (min_eigenval : Fisher -> Q).
Variables (sample : BaseSample Fisher) (initial_angle_times : loc).
Variables (points_new : Z) (time_new : Q).
Variables (initial : list angle_time) (fisher_at : Q -> Fisher).

Local Abbreviation new_plan_for a := (initial ++ [(a, points_new, time_new)]).
Local Abbreviation scalar a := (min_eigenval (fisher_at a)).

Lemma angle_choice_body (contrasts : loc) (cs : list Q) (n k : nat) (acc : list Q) (a : Q) w :
  plans w !! initial_angle_times = Some initial ->
  contrast_lists w !! contrasts = Some cs ->
  angle_info sample (new_plan_for a) cs = Ok (fisher_at a) ->
  exists w',
    (when (k mod 100 =? 0)%nat (print_progress k n) ;;
     initial <- read_plan initial_angle_times ;
     new_angle_times <- new_plan (initial ++ [(a, points_new, time_new)]) ;
     fisher_new <- call_angle_info sample new_angle_times contrasts ;
     ret (acc ++ [min_eigenval fisher_new])) w
    = (Ok (acc ++ [scalar a]), w')
    /\ plans w' = plans w ++ [new_plan_for a]
    /\ contrast_lists w' = contrast_lists w
    /\ parameters w' = parameters w
    /\ evaluations (log w') = evaluations (log w) ++ [EAngleInfo (new_plan_for a) cs].
Proof.
  intros Hb Hc Hok.
  destruct (when_print_progress (k mod 100 =? 0)%nat k n w)
    as (w1 & Hrun1 & Hp1 & Hc1 & Hq1 & Hl1).
  rewrite (bind_ok _ _ _ _ _ Hrun1).
  rewrite (bind_ok _ _ w1 initial w1) by (apply read_plan_ok; congruence).
  unfold bind at 1. simpl.
  unfold call_angle_info, bind, read_plan, read_contrasts, emit, lift, ret. simpl.
  rewrite list_lookup_middle by reflexivity.
  simpl. rewrite Hc1, Hc. simpl. rewrite Hok. eexists. split; [reflexivity|]. simpl.
  rewrite ?Hp1, ?Hc1, ?Hq1, evaluations_app, Hl1. repeat split.
Qed.

Lemma angle_choice_loop (contrasts : loc) (cs : list Q) (n : nat) (xs : list Q) : forall k acc w,
  plans w !! initial_angle_times = Some initial ->
  contrast_lists w !! contrasts = Some cs ->
  (forall a, In a xs -> angle_info sample (new_plan_for a) cs = Ok (fisher_at a)) ->
  exists w',
    for_each (enumerate_from k xs)
      (fun min_eigs '(i, angle_new) =>
         when (i mod 100 =? 0)%nat (print_progress i n) ;;
         initial <- read_plan initial_angle_times ;
         new_angle_times <- new_plan (initial ++ [(angle_new, points_new, time_new)]) ;
         fisher_new <- call_angle_info sample new_angle_times contrasts ;
         ret (min_eigs ++ [min_eigenval fisher_new]))
      acc w
    = (Ok (acc ++ List.map (fun a => scalar a) xs), w')
    /\ plans w' = plans w ++ List.map (fun a => new_plan_for a) xs
    /\ contrast_lists w' = contrast_lists w
    /\ parameters w' = parameters w
    /\ evaluations (log w') =
       evaluations (log w) ++ List.map (fun a => EAngleInfo (new_plan_for a) cs) xs.
Proof.
  induction xs as [|a t IH]; intros k acc w Hb Hc Hok;
    cbn [enumerate_from for_each List.map].
  - exists w. rewrite !app_nil_r. repeat split.
  - destruct (angle_choice_body contrasts cs n k acc a w Hb Hc)
      as (w1 & Hrun1 & Hp1 & Hc1 & Hq1 & Hl1).
    { apply Hok. left. reflexivity. }
    rewrite (bind_ok _ _ _ _ _ Hrun1). cbv beta.
    destruct (IH (S k) (acc ++ [scalar a]) w1) as (w2 & Hrun2 & Hp2 & Hc2 & Hq2 & Hl2).
    { rewrite Hp1. apply lookup_app_l_Some. exact Hb. }
    { rewrite Hc1. exact Hc. }
    { intros a' Ha'. apply Hok. right. exact Ha'. }
    exists w2. rewrite Hrun2, Hp2, Hc2, Hq2, Hl2, Hp1, Hc1, Hq1, Hl1.
    rewrite <- !app_assoc. simpl. repeat split.
Qed.

(** The whole run of [angle_choice] on a sample that supports the angle
    axis and answers every candidate. *)
Lemma angle_choice_run (angle_range : list Q) (save_path filename : string)
    (contrasts : option loc) (cs : list Q) (w : world) :
  VariableAngle sample = true ->
  angle_range <> [] ->
  plans w !! initial_angle_times = Some initial ->
  match contrasts with
  | None => cs = []
  | Some c => contrast_lists w !! c = Some cs
  end ->
  (forall a, In a angle_range -> angle_info sample (new_plan_for a) cs = Ok (fisher_at a)) ->
  exists best k w',
    angle_choice min_eigenval sample initial_angle_times angle_range points_new time_new
      save_path filename contrasts w = (Ok best, w')
    /\ angle_range !! k = Some best
    /\ (forall j a, angle_range !! j = Some a -> scalar a <= scalar best)
    /\ (forall j a, (j < k)%nat -> angle_range !! j = Some a -> scalar a < scalar best)
    /\ evaluations (log w') =
       evaluations (log w) ++ List.map (fun a => EAngleInfo (new_plan_for a) cs) angle_range
    /\ plans w' = plans w ++ List.map (fun a => new_plan_for a) angle_range.
Proof.
  intros Hcap Hne Hb Hcs Hok.
  unfold angle_choice. rewrite Hcap. cbn [assert_].
  rewrite (bind_ok _ _ w tt w) by reflexivity.
  assert (exists c w0, match contrasts with
                       | Some c => ret c
                       | None => new_contrasts []
                       end w = (Ok c, w0)
            /\ contrast_lists w0 !! c = Some cs /\ plans w0 = plans w
            /\ log w0 = log w) as (c & w0 & Hrun0 & Hc0 & Hp0 & Hl0).
  { destruct contrasts as [c|].
    - exists c, w. repeat split. exact Hcs.
    - subst cs. eexists _, _. split; [reflexivity|]. simpl. repeat split.
      apply list_lookup_middle. reflexivity. }
  rewrite (bind_ok _ _ _ _ _ Hrun0).
  destruct (angle_choice_loop c cs (length angle_range) angle_range 0%nat [] w0)
    as (w1 & Hrun1 & Hp1 & _ & _ & Hl1); [congruence | exact Hc0 | exact Hok |].
  unfold enumerate. rewrite (bind_ok _ _ _ _ _ Hrun1). cbn [app].
  unfold bind at 1. cbn [emit]. unfold bind at 1. cbn [emit].
  destruct (argmax_first_max (List.map (fun a => scalar a) angle_range))
    as (k & v & Hk & Hv & Hmax & Hfirst).
  { destruct angle_range; [congruence | discriminate]. }
  unfold bind, lift. rewrite Hk.
  rewrite lookup_map in Hv.
  destruct (angle_range !! k) as [best|] eqn:Hbest; [|discriminate].
  injection Hv as <-.
  exists best, k. eexists. unfold getitem. rewrite Hbest. split; [reflexivity|].
  cbn [plans log]. rewrite !evaluations_app, Hl1, Hp1, Hl0, Hp0. cbn. rewrite !app_nil_r.
  repeat split.
  - intros j a Ha. apply (Hmax j). rewrite lookup_map, Ha. reflexivity.
  - intros j a Hj Ha. apply (Hfirst j); [exact Hj|]. rewrite lookup_map, Ha. reflexivity.
Qed.

End AngleChoice.

(** ** [contrast_choice_single] *)

Section ContrastChoiceSingle.

Context {Fisher : Type} (min_eigenval : Fisher -> Q).
Variables (sample : BaseSample Fisher) (initial_contrasts : loc).
Variables (angle_times : list angle_time).
Variables (initial : list Q) (fisher_at : Q -> Fisher).

Local Abbreviation scalar c := (min_eigenval (fisher_at c)).

Lemma contrast_choice_single_body (n k : nat) (acc : list Q) (c : Q) w :
  contrast_lists w !! initial_contrasts = Some initial ->
  contrast_info sample angle_times (initial ++ [c]) = Ok (fisher_at c) ->
  exists w',
    (when (k mod 100 =? 0)%nat (print_progress k n) ;;
     initial <- read_contrasts initial_contrasts ;
     new_contrast <- new_contrasts (initial ++ [c]) ;
     new_contrast <- read_contrasts new_contrast ;
     fisher_new <- call_contrast_info sample angle_times new_contrast ;
     ret (acc ++ [min_eigenval fisher_new])) w
    = (Ok (acc ++ [scalar c]), w')
    /\ contrast_lists w' = contrast_lists w ++ [initial ++ [c]]
    /\ plans w' = plans w
    /\ parameters w' = parameters w
    /\ evaluations (log w') =
       evaluations (log w) ++ [EContrastInfo angle_times (initial ++ [c])].
Proof.
  intros Hb Hok.
  destruct (when_print_progress (k mod 100 =? 0)%nat k n w)
    as (w1 & Hrun1 & Hp1 & Hc1 & Hq1 & Hl1).
  rewrite (bind_ok _ _ _ _ _ Hrun1).
  rewrite (bind_ok _ _ w1 initial w1) by (apply read_contrasts_ok; congruence).
  unfold bind at 1. simpl.
  unfold call_contrast_info, bind, read_contrasts, emit, lift, ret. simpl.
  rewrite list_lookup_middle by reflexivity. simpl.
  rewrite Hok. eexists. split; [reflexivity|]. simpl.
  rewrite ?Hp1, ?Hc1, ?Hq1, evaluations_app, Hl1. repeat split.
Qed.

Lemma contrast_choice_single_loop (n : nat) (xs : list Q) : forall k acc w,
  contrast_lists w !! initial_contrasts = Some initial ->
  (forall c, In c xs -> contrast_info sample angle_times (initial ++ [c]) = Ok (fisher_at c)) ->
  exists w',
    for_each (enumerate_from k xs)
      (fun min_eigs '(i, new_contrast) =>
         when (i mod 100 =? 0)%nat (print_progress i n) ;;
         initial <- read_contrasts initial_contrasts ;
         new_contrast <- new_contrasts (initial ++ [new_contrast]) ;
         new_contrast <- read_contrasts new_contrast ;
         fisher_new <- call_contrast_info sample angle_times new_contrast ;
         ret (min_eigs ++ [min_eigenval fisher_new]))
      acc w
    = (Ok (acc ++ List.map (fun c => scalar c) xs), w')
    /\ contrast_lists w' = contrast_lists w ++ List.map (fun c => initial ++ [c]) xs
    /\ plans w' = plans w
    /\ parameters w' = parameters w
    /\ evaluations (log w') =
       evaluations (log w)
       ++ List.map (fun c => EContrastInfo angle_times (initial ++ [c])) xs.
Proof.
  induction xs as [|c t IH]; intros k acc w Hb Hok;
    cbn [enumerate_from for_each List.map].
  - exists w. rewrite !app_nil_r. repeat split.
  - destruct (contrast_choice_single_body n k acc c w Hb)
      as (w1 & Hrun1 & Hc1 & Hp1 & Hq1 & Hl1).
    { apply Hok. left. reflexivity. }
    rewrite (bind_ok _ _ _ _ _ Hrun1). cbv beta.
    destruct (IH (S k) (acc ++ [scalar c]) w1) as (w2 & Hrun2 & Hc2 & Hp2 & Hq2 & Hl2).
    { rewrite Hc1. apply lookup_app_l_Some. exact Hb. }
    { intros c' Hc'. apply Hok. right. exact Hc'. }
    exists w2. rewrite Hrun2, Hp2, Hc2, Hq2, Hl2, Hp1, Hc1, Hq1, Hl1.
    rewrite <- !app_assoc. simpl. repeat split.
Qed.

Lemma contrast_choice_single_run (contrast_range : list Q) (save_path filename : string)
    (w : world) :
  VariableContrast sample = true ->
  contrast_range <> [] ->
  contrast_lists w !! initial_contrasts = Some initial ->
  (forall c, In c contrast_range ->
     contrast_info sample angle_times (initial ++ [c]) = Ok (fisher_at c)) ->
  exists best k w',
    contrast_choice_single min_eigenval sample contrast_range initial_contrasts angle_times
      save_path filename w = (Ok best, w')
    /\ contrast_range !! k = Some best
    /\ (forall j c, contrast_range !! j = Some c -> scalar c <= scalar best)
    /\ (forall j c, (j < k)%nat -> contrast_range !! j = Some c -> scalar c < scalar best)
    /\ evaluations (log w') =
       evaluations (log w)
       ++ List.map (fun c => EContrastInfo angle_times (initial ++ [c])) contrast_range
    /\ contrast_lists w' =
       contrast_lists w ++ List.map (fun c => initial ++ [c]) contrast_range.
Proof.
  intros Hcap Hne Hb Hok.
  unfold contrast_choice_single. rewrite Hcap. cbn [assert_].
  rewrite (bind_ok _ _ w tt w) by reflexivity.
  destruct (contrast_choice_single_loop (length contrast_range) contrast_range 0%nat [] w)
    as (w1 & Hrun1 & Hc1 & _ & _ & Hl1); [exact Hb | exact Hok |].
  unfold enumerate. rewrite (bind_ok _ _ _ _ _ Hrun1). cbn [app].
  unfold bind at 1. cbn [emit]. unfold bind at 1. cbn [emit].
  destruct (argmax_first_max (List.map (fun c => scalar c) contrast_range))
    as (k & v & Hk & Hv & Hmax & Hfirst).
  { destruct contrast_range; [congruence | discriminate]. }
  unfold bind, lift. rewrite Hk.
  rewrite lookup_map in Hv.
  destruct (contrast_range !! k) as [best|] eqn:Hbest; [|discriminate].
  injection Hv as <-.
  exists best, k. eexists. unfold getitem. rewrite Hbest. split; [reflexivity|].
  cbn [contrast_lists log]. rewrite !evaluations_app, Hl1, Hc1. cbn. rewrite !app_nil_r.
  repeat split.
  - intros j c Hc. apply (Hmax j). rewrite lookup_map, Hc. reflexivity.
  - intros j c Hj Hc. apply (Hfirst j); [exact Hj|]. rewrite lookup_map, Hc. reflexivity.
Qed.

End ContrastChoiceSingle.

(** ** [contrast_choice_double] *)

(** *** The pairs [itertools.combinations] enumerates *)

Example combinations2_of_four :
  combinations2 [1; 2; 3; 4]%nat
  = [(1, 2); (1, 3); (1, 4); (2, 3); (2, 4); (3, 4)]%nat.
Proof. reflexivity. Qed.

Section Combinations.

Context {A : Type}.




(** Candidates that differ pairwise, for a notion [same] of being the same
    candidate. *)
Variable same : A -> A -> Prop.


End Combinations.

Section ContrastChoiceDouble.

Context {Fisher : Type} (min_eigenval : Fisher -> Q).
Variables (sample : BaseSample Fisher) (angle_times : list angle_time).
Variable fisher_at : Q * Q -> Fisher.

Local Abbreviation scalar p := (min_eigenval (fisher_at p)).
Local Abbreviation call_of p := (EContrastInfo angle_times [fst p; snd p]).



(** Reading the doubled plot data at one index. *)
Lemma doubled_lookup {B} (u v : list B) (k : nat) :
  length u = length v -> (k < length u)%nat ->
  (u ++ v) !! k = u !! k /\ (u ++ v) !! (k + length u)%nat = v !! k.
Proof.
  intros Hlen Hk. split.
  - apply lookup_app_l. exact Hk.
  - rewrite lookup_app_r by lia. f_equal. lia.
Qed.


End ContrastChoiceDouble.

(** ** [underlayer_choice] *)

Section UnderlayerChoice.

Context {Fisher : Type} (min_eigenval : Fisher -> Q).
Variables (sample : BaseSample Fisher).
Variables (contrasts : list Q) (angle_times : list angle_time).
Variable fisher_at : Q * Q -> Fisher.

Local Abbreviation scalar p := (min_eigenval (fisher_at p)).
Local Abbreviation call_of p := (EUnderlayerInfo angle_times contrasts [p]).




End UnderlayerChoice.

(** ** [scan_parameters] *)

Import Frame.

Lemma bind_inv_ok {A B} (m : M A) (k : A -> M B) w b w' :
  bind m k w = (Ok b, w') ->
  exists a w1, m w = (Ok a, w1) /\ k a w1 = (Ok b, w').
Proof.
  unfold bind. destruct (m w) as [[a|e] w1]; intros H; [|discriminate].
  exists a, w1. split; [reflexivity | exact H].
Qed.

Section Preservation.

Variable P : world -> world -> Prop.
Hypothesis P_refl : forall w, P w w.
Hypothesis P_trans : forall w1 w2 w3, P w1 w2 -> P w2 w3 -> P w1 w3.

Lemma preserves_ret {A} (a : A) : preserves P (ret a).
Proof. intros w r w' H. injection H as _ <-. apply P_refl. Qed.

Lemma preserves_raise {A} (e : exn) : preserves P (@raise A e).
Proof. intros w r w' H. injection H as _ <-. apply P_refl. Qed.

Lemma preserves_lift {A} (r : outcome A) : preserves P (lift r).
Proof. intros w r' w' H. injection H as _ <-. apply P_refl. Qed.

Lemma preserves_bind {A B} (m : M A) (k : A -> M B) :
  preserves P m -> (forall a, preserves P (k a)) -> preserves P (bind m k).
Proof.
  intros Hm Hk w r w'. unfold bind.
  destruct (m w) as [[a|e] w1] eqn:Hmw; intros H.
  - eapply P_trans; [eapply Hm; exact Hmw | eapply Hk; exact H].
  - injection H as _ <-. eapply Hm; exact Hmw.
Qed.

Lemma preserves_for_each {A S} (body : S -> A -> M S) (xs : list A) :
  (forall s x, preserves P (body s x)) -> forall s, preserves P (for_each xs body s).
Proof.
  intros Hbody. induction xs as [|x t IH]; intros s; cbn [for_each].
  - apply preserves_ret.
  - apply preserves_bind; [apply Hbody | exact IH].
Qed.

Lemma preserves_ok_of {A} (m : M A) : preserves P m -> preserves_ok P m.
Proof. intros H w a w' Hrun. eapply H; exact Hrun. Qed.

Lemma preserves_ok_bind {A B} (m : M A) (k : A -> M B) :
  preserves_ok P m -> (forall a, preserves_ok P (k a)) -> preserves_ok P (bind m k).
Proof.
  intros Hm Hk w b w' H. apply bind_inv_ok in H. destruct H as (a & w1 & H1 & H2).
  eapply P_trans; [eapply Hm; exact H1 | eapply Hk; exact H2].
Qed.

Lemma preserves_ok_for_each {A S} (body : S -> A -> M S) (xs : list A) :
  (forall s x, preserves_ok P (body s x)) -> forall s, preserves_ok P (for_each xs body s).
Proof.
  intros Hbody. induction xs as [|x t IH]; intros s; cbn [for_each].
  - apply preserves_ok_of, preserves_ret.
  - apply preserves_ok_bind; [apply Hbody | exact IH].
Qed.

End Preservation.

Lemma same_parameters_refl w : same_parameters w w.
Proof. reflexivity. Qed.

Lemma same_parameters_trans w1 w2 w3 :
  same_parameters w1 w2 -> same_parameters w2 w3 -> same_parameters w1 w3.
Proof. unfold same_parameters. congruence. Qed.

Lemma same_parameters_emit e : preserves same_parameters (emit e).
Proof. intros w r w' H. injection H as _ <-. reflexivity. Qed.

Lemma same_parameters_read l : preserves same_parameters (read_parameter l).
Proof.
  intros w r w'. unfold read_parameter.
  destruct (parameters w !! l); intros H; injection H as _ <-; reflexivity.
Qed.

Lemma same_parameters_getitem {A} (xs : list A) i : preserves same_parameters (getitem xs i).
Proof.
  unfold getitem. destruct (xs !! i).
  - apply preserves_ret, same_parameters_refl.
  - apply preserves_raise, same_parameters_refl.
Qed.

Lemma same_parameters_max_of l : preserves same_parameters (max_of l).
Proof.
  destruct l; [apply preserves_raise | apply preserves_ret]; apply same_parameters_refl.
Qed.

Lemma same_parameters_min_of l : preserves same_parameters (min_of l).
Proof.
  destruct l; [apply preserves_raise | apply preserves_ret]; apply same_parameters_refl.
Qed.

Section ScanParameters.

Context {Fisher : Type} (min_eigenval : Fisher -> Q).
Variable from_sample : list Parameter_ -> BaseSample Fisher -> list angle_time -> outcome Fisher.
Variables (sample : BaseSample Fisher) (angle_times : list angle_time).

(** While one Parameter is scanned, only its value differs from what it
    was. *)
Lemma scan_one_parameter_writes (sigma : list Parameter_) (param : loc) (p : Parameter_)
    (vs : list Q) (acc : list Q) :
  sigma !! param = Some p ->
  preserves (fun w w' => value_written sigma param p w -> value_written sigma param p w')
    (for_each vs
       (fun eigenvals v =>
          write_value param v ;;
          fisher <- call_from_sample from_sample sample angle_times ;
          ret (eigenvals ++ [min_eigenval fisher]))
       acc).
Proof.
  intros Hp.
  set (P := fun w w' => value_written sigma param p w -> value_written sigma param p w').
  assert (P_refl : forall w, P w w) by (intros w H; exact H).
  assert (P_trans : forall w1 w2 w3, P w1 w2 -> P w2 w3 -> P w1 w3)
    by (intros w1 w2 w3 H12 H23 H; apply H23, H12, H).
  apply (preserves_for_each P P_refl P_trans). intros s v.
  apply (preserves_bind P P_trans).
  - intros w r w'. unfold write_value.
    destruct (parameters w !! param) as [q|] eqn:Hq; intros H; injection H as _ <-;
      [|apply P_refl].
    intros [v0 Hv0]. exists v. cbn [parameters]. rewrite Hv0 in Hq |- *.
    rewrite list_lookup_insert_eq in Hq by (eapply lookup_lt_Some; exact Hp).
    injection Hq as <-. rewrite list_insert_insert_eq. reflexivity.
  - intros _. apply (preserves_bind P P_trans).
    + unfold call_from_sample. apply (preserves_bind P P_trans).
      * intros w r w' H. injection H as _ <-. intros [v0 Hv0]. exists v0. exact Hv0.
      * intros _ w r w' H. injection H as _ <-. apply P_refl.
    + intros fisher. apply (preserves_ret P P_refl).
Qed.

(** Scanning one Parameter and writing its old value back leaves every
    Parameter as it was. *)
Lemma scan_one_parameter_restores (param_values : list (list Q))
    (eigenval_list : list (list Q)) (param : loc) :
  preserves_ok same_parameters
    (p <- read_parameter param ;
     let lb := bounds_lb p in
     let ub := bounds_ub p in
     let old_value := value p in
     let param_range := linspace lb ub 100 in
     eigenvals <- for_each param_range
       (fun eigenvals v =>
          write_value param v ;;
          fisher <- call_from_sample from_sample sample angle_times ;
          ret (eigenvals ++ [min_eigenval fisher]))
       [] ;
     write_value param old_value ;;
     ret (param_values ++ [param_range], eigenval_list ++ [eigenvals])).
Proof.
  intros w r w' H.
  apply bind_inv_ok in H. destruct H as (p & w1 & Hread & H).
  unfold read_parameter in Hread.
  destruct (parameters w !! param) as [p0|] eqn:Hp; [|discriminate].
  injection Hread as <- <-.
  cbv zeta in H.
  apply bind_inv_ok in H. destruct H as (eigenvals & w2 & Hscan & H).
  apply bind_inv_ok in H. destruct H as ([] & w3 & Hwrite & H).
  injection H as _ <-.
  assert (Hid : set_value (value p0) p0 = p0) by (destruct p0; reflexivity).
  assert (Hw2 : value_written (parameters w) param p0 w2).
  { eapply (scan_one_parameter_writes (parameters w) param p0 _ _ Hp); [exact Hscan|].
    exists (value p0). rewrite Hid. symmetry. apply list_insert_id. exact Hp. }
  destruct Hw2 as [v Hv]. unfold write_value in Hwrite.
  rewrite Hv in Hwrite.
  rewrite list_lookup_insert_eq in Hwrite by (eapply lookup_lt_Some; exact Hp).
  injection Hwrite as <-. unfold same_parameters. cbn [parameters].
  rewrite list_insert_insert_eq.
  change (set_value (value p0) (set_value v p0)) with (set_value (value p0) p0).
  rewrite Hid. apply list_insert_id. exact Hp.
Qed.

Lemma scan_parameters_frame (params : list loc) :
  preserves_ok same_parameters
    (scan_parameters min_eigenval from_sample sample params angle_times).
Proof.
  unfold scan_parameters.
  apply (preserves_ok_bind _ same_parameters_trans).
  - apply (preserves_ok_for_each _ same_parameters_refl same_parameters_trans).
    intros [param_values eigenval_list] param.
    apply scan_one_parameter_restores.
  - intros [param_values eigenval_list].
    apply preserves_ok_of.
    apply (preserves_bind _ same_parameters_trans); [apply same_parameters_max_of|].
    intros ymax.
    apply (preserves_for_each _ same_parameters_refl same_parameters_trans).
    intros [] [i param].
    apply (preserves_bind _ same_parameters_trans); [apply same_parameters_read|]. intros p.
    apply (preserves_bind _ same_parameters_trans); [apply same_parameters_getitem|]. intros xs.
    apply (preserves_bind _ same_parameters_trans); [apply same_parameters_getitem|]. intros ys.
    apply (preserves_bind _ same_parameters_trans); [apply same_parameters_min_of|]. intros xmin.
    apply (preserves_bind _ same_parameters_trans); [apply same_parameters_max_of|]. intros xmax.
    apply (preserves_bind _ same_parameters_trans); [apply same_parameters_emit|]. intros _.
    apply same_parameters_emit.
Qed.

End ScanParameters.

(** ** [Sample.get_structures] *)

Import Samples.

(** The layer put in place of [layer] in the spin-up and spin-down copies. *)
Local Abbreviation up_layer layer :=
  (match spin_up layer with Ok u => u | Raise _ => layer end).
Local Abbreviation down_layer layer :=
  (match spin_down layer with Ok d => d | Raise _ => layer end).

Lemma insert_middle {A} (l1 l2 : list A) (x y : A) (i : nat) :
  i = length l1 -> <[i := y]> (l1 ++ x :: l2) = l1 ++ y :: l2.
Proof.
  intros ->. rewrite insert_app_r_alt by lia. rewrite Nat.sub_diag. reflexivity.
Qed.

Lemma spin_magnetic (layer : Slab) :
  isinstance_MagneticLayer layer = true ->
  exists u d, spin_up layer = Ok u /\ spin_down layer = Ok d.
Proof.
  unfold isinstance_MagneticLayer, spin_up, spin_down, SLD_n, SLD_m.
  destruct (class layer); intros H; try discriminate.
  eexists _, _. split; reflexivity.
Qed.

Lemma spin_loop (nu nd : string) (xs : list Slab) : forall (pre : list Slab),
  ofold (enumerate_from (length pre) xs)
    (fun '(up, down) '(i, layer) =>
       if isinstance_MagneticLayer layer then
         obind (spin_up layer) (fun u =>
         obind (spin_down layer) (fun d =>
         Ok ({| structure_name := structure_name up; data := <[i := u]> (data up) |},
             {| structure_name := structure_name down; data := <[i := d]> (data down) |})))
       else Ok (up, down))
    ({| structure_name := nu;
        data := List.map (fun c => if isinstance_MagneticLayer c then up_layer c else c) pre
                ++ xs |},
     {| structure_name := nd;
        data := List.map (fun c => if isinstance_MagneticLayer c then down_layer c else c) pre
                ++ xs |})
  = Ok ({| structure_name := nu;
           data := List.map (fun c => if isinstance_MagneticLayer c then up_layer c else c)
                     (pre ++ xs) |},
        {| structure_name := nd;
           data := List.map (fun c => if isinstance_MagneticLayer c then down_layer c else c)
                     (pre ++ xs) |}).
Proof.
  induction xs as [|x t IH]; intros pre; cbn [enumerate_from ofold].
  - rewrite !app_nil_r. reflexivity.
  - specialize (IH (pre ++ [x])).
    rewrite length_app, Nat.add_1_r in IH. rewrite !List.map_app in IH. cbn [List.map] in IH.
    rewrite <- !app_assoc in IH. cbn [app] in IH.
    rewrite !List.map_app. cbn [List.map].
    destruct (isinstance_MagneticLayer x) eqn:Hx.
    + destruct (spin_magnetic x Hx) as (u & d & Hu & Hd).
      rewrite Hu, Hd in *. cbn [obind structure_name data].
      rewrite !insert_middle by (rewrite length_map; reflexivity). exact IH.
    + exact IH.
Qed.

(** ** [Sample.to_refl1d] and [Sample.to_refnx] *)

(** The Refl1D layer made from a refnx component, and the refnx slab made
    from a Refl1D layer. *)
Local Abbreviation refl1d_layer_of component :=
  (layer_of (Material_ (value (real (sld component))) (value (imag (sld component)))
               (name component))
     (value (thick component)) (value (rough component))).
Local Abbreviation refnx_slab_of component :=
  (slab_of {| sld_name := layer_name component;
              real := fixed (value (rho (material component)));
              imag := fixed (value (irho (material component))) |}
     (fixed (value (thickness component))) (fixed (value (interface component)))).

Lemma to_refl1d_loop (rest : list Slab) : forall (below : list Layer),
  ofold rest
    (fun acc component =>
       let nm := name component in
       let sld_v := value (real (sld component)) in
       let sld_imag := value (imag (sld component)) in
       let thick_v := value (thick component) in
       let rough_v := value (rough component) in
       let layer := layer_of (Material_ sld_v sld_imag nm) thick_v rough_v in
       refl1d_or layer acc)
    (Refl1dStack {| stack_name := "Stack"; layers := below |})
  = Ok (Refl1dStack
          {| stack_name := "Stack";
             layers := reverse (List.map (fun c => refl1d_layer_of c) rest) ++ below |}).
Proof.
  induction rest as [|c t IH]; intros below; cbn [ofold List.map].
  - reflexivity.
  - cbn [refl1d_or obind layers]. rewrite IH, reverse_cons, <- app_assoc. reflexivity.
Qed.

Lemma to_refnx_loop (nm : string) (ls : list Layer) : forall (above : list Slab),
  ofold ls
    (fun acc component =>
       let nm := layer_name component in
       let sld_v := fixed (value (rho (material component))) in
       let sld_imag := fixed (value (irho (material component))) in
       let thick_v := value (thickness component) in
       let rough_v := value (interface component) in
       refnx_ior acc
         (slab_of {| sld_name := nm; real := sld_v; imag := sld_imag |}
            (fixed thick_v) (fixed rough_v)))
    (RefnxStructure {| structure_name := nm; data := above |})
  = Ok (RefnxStructure
          {| structure_name := nm;
             data := above ++ List.map (fun l => refnx_slab_of l) ls |}).
Proof.
  induction ls as [|l t IH]; intros above; cbn [ofold List.map].
  - rewrite app_nil_r. reflexivity.
  - cbn [refnx_ior obind structure_name data]. rewrite IH, <- app_assoc. reflexivity.
Qed.

(** Converting a refnx structure of at least two components to Refl1D and
    back. *)
Lemma roundtrip_run (self : Sample) (s : Structure) :
  structure_ self = RefnxStructure s ->
  (2 <= length (data s))%nat ->
  obind (to_refl1d self) to_refnx
  = Ok (set_structure
          (RefnxStructure
             {| structure_name := structure_name s;
                data := slab_of (SLD_ 0 "Air") (fixed 0) (fixed 0)
                        :: List.map (fun c => refnx_slab_of (refl1d_layer_of c))
                             (drop 1 (data s)) |})
          self).
Proof.
  intros Hs Hlen. unfold to_refl1d. rewrite Hs.
  destruct s as [nm [|c0 [|c1 rest]]]; cbn [data length] in Hlen; try lia.
  cbn [data drop ofold refl1d_or obind structure_name].
  rewrite to_refl1d_loop. cbn [obind set_name layers stack_name].
  unfold to_refnx. cbn [structure_ set_structure layers stack_name].
  rewrite reverse_app, reverse_involutive. cbn [reverse rev_append app drop List.map].
  cbn [ofold refnx_ior obind].
  rewrite to_refnx_loop. cbn [obind set_name structure_name data app].
  rewrite List.map_map. reflexivity.
Qed.

(** * The claims of the specification *)

Import Visualise Examples.

(** C1. On a non-empty range of candidate angles, for a sample that
    supports the angle axis and answers every candidate, [angle_choice]
    calls [angle_info] once per candidate in scan order, and returns a
    candidate of the range whose minimum eigenvalue is at least that of
    every candidate and strictly above that of every earlier candidate:
    the first maximum in scan order. *)
Theorem angle_choice_first_maximum {Fisher : Type} (min_eigenval : Fisher -> Q)
    (sample : BaseSample Fisher) (initial_angle_times : loc) (angle_range : list Q)
    (points_new : Z) (time_new : Q) (save_path filename : string)
    (contrasts : option loc) (initial : list angle_time) (cs : list Q)
    (fisher_at : Q -> Fisher) (w : world) :
  VariableAngle sample = true ->
  angle_range <> [] ->
  plans w !! initial_angle_times = Some initial ->
  match contrasts with
  | None => cs = []
  | Some c => contrast_lists w !! c = Some cs
  end ->
  (forall a, In a angle_range ->
     angle_info sample (initial ++ [(a, points_new, time_new)]) cs = Ok (fisher_at a)) ->
  exists best k w',
    angle_choice min_eigenval sample initial_angle_times angle_range points_new time_new
      save_path filename contrasts w = (Ok best, w')
    /\ evaluations (log w') =
       evaluations (log w)
       ++ List.map (fun a => EAngleInfo (initial ++ [(a, points_new, time_new)]) cs)
            angle_range
    /\ angle_range !! k = Some best
    /\ (forall j a, angle_range !! j = Some a ->
          min_eigenval (fisher_at a) <= min_eigenval (fisher_at best))
    /\ (forall j a, (j < k)%nat -> angle_range !! j = Some a ->
          min_eigenval (fisher_at a) < min_eigenval (fisher_at best)).
Proof.
  intros Hcap Hne Hb Hcs Hok.
  destruct (angle_choice_run min_eigenval sample initial_angle_times points_new time_new
              initial fisher_at angle_range save_path filename contrasts cs w
              Hcap Hne Hb Hcs Hok)
    as (best & k & w' & Hrun & Hk & Hmax & Hfirst & Hlog & _).
  exists best, k, w'. repeat split; assumption.
Qed.

Lemma angle_choice_first_maximum_witness :
  exists best k w',
    angle_choice (fun x : Q => x) toy_sample 0%nat [1; 2; 3; 5 # 2; 3] 100%Z 10
      "out" "f" None toy_world = (Ok best, w')
    /\ evaluations (log w') =
       evaluations (log toy_world)
       ++ List.map (fun a => EAngleInfo ([(7 # 10, 100%Z, 1000)] ++ [(a, 100%Z, 10)]) [])
            [1; 2; 3; 5 # 2; 3]
    /\ [1; 2; 3; 5 # 2; 3] !! k = Some best
    /\ (forall j a, [1; 2; 3; 5 # 2; 3] !! j = Some a ->
          (a - 2) * (3 - a) <= (best - 2) * (3 - best))
    /\ (forall j a, (j < k)%nat -> [1; 2; 3; 5 # 2; 3] !! j = Some a ->
          (a - 2) * (3 - a) < (best - 2) * (3 - best)).
Proof.
  apply (angle_choice_first_maximum (fun x : Q => x) toy_sample 0%nat [1; 2; 3; 5 # 2; 3]
           100%Z 10 "out" "f" None [(7 # 10, 100%Z, 1000)] []
           (fun a => (a - 2) * (3 - a)) toy_world).
  - reflexivity.
  - discriminate.
  - reflexivity.
  - reflexivity.
  - intros a _. reflexivity.
Defined.

(** C2. A driver called on a sample that is not an instance of the
    capability class it needs ([VariableAngle] for [angle_choice],
    [VariableContrast] for [contrast_choice_single], [VariableUnderlayer]
    for [underlayer_choice]) stops at its [assert]: it raises the
    assertion error that stands for the specification's
    UnsupportedOperationError, and the world is exactly as it was, so no
    candidate has been evaluated, and nothing printed or plotted. *)
Theorem drivers_fail_fast_without_capability {Fisher : Type} (min_eigenval : Fisher -> Q)
    (sample : BaseSample Fisher) (w : world) :
  (VariableAngle sample = false ->
   forall initial_angle_times angle_range points_new time_new save_path filename contrasts,
     angle_choice min_eigenval sample initial_angle_times angle_range points_new time_new
       save_path filename contrasts w = (Raise AssertionError, w))
  /\ (VariableContrast sample = false ->
      forall contrast_range initial_contrasts angle_times save_path filename,
        contrast_choice_single min_eigenval sample contrast_range initial_contrasts
          angle_times save_path filename w = (Raise AssertionError, w))
  /\ (VariableUnderlayer sample = false ->
      forall thickness_range sld_range contrasts angle_times save_path filename,
        underlayer_choice min_eigenval sample thickness_range sld_range contrasts
          angle_times save_path filename w = (Raise AssertionError, w)).
Proof.
  repeat split; intros Hcap; intros.
  - unfold angle_choice. rewrite Hcap. reflexivity.
  - unfold contrast_choice_single. rewrite Hcap. reflexivity.
  - unfold underlayer_choice. rewrite Hcap. reflexivity.
Qed.

Lemma drivers_fail_fast_without_capability_witness :
  angle_choice (fun x : Q => x) plain_sample 0%nat [1; 2; 3] 100%Z 10 "out" "f" None
    toy_world = (Raise AssertionError, toy_world)
  /\ contrast_choice_single (fun x : Q => x) plain_sample [1; 2; 3] 0%nat [] "out" "f"
       toy_world = (Raise AssertionError, toy_world)
  /\ underlayer_choice (fun x : Q => x) plain_sample [10; 20] [1; 2] [6] [] "out" "f"
       toy_world = (Raise AssertionError, toy_world).
Proof.
  destruct (drivers_fail_fast_without_capability (fun x : Q => x) plain_sample toy_world)
    as (Hangle & Hcontrast & Hunderlayer).
  split; [|split].
  - apply Hangle. reflexivity.
  - apply Hcontrast. reflexivity.
  - apply Hunderlayer. reflexivity.
Defined.




(** With fewer than two candidates there is no pair: nothing is evaluated
    and [contrasts[:, 0]] raises. *)
Example contrast_choice_double_single_candidate :
  contrast_choice_double (fun x : Q => x) toy_sample [1] [] "out" toy_world
  = (Raise IndexError, toy_world).
Proof. reflexivity. Qed.



(** C5. When [scan_parameters] returns, every Parameter object is as it
    was before the call; in particular each Parameter of the given list
    has the value it had, although the scan has written a hundred other
    values to it on the way. *)
Theorem scan_parameters_restores_values {Fisher : Type} (min_eigenval : Fisher -> Q)
    (from_sample : list Parameter_ -> BaseSample Fisher -> list angle_time -> outcome Fisher)
    (sample : BaseSample Fisher) (params : list loc) (angle_times : list angle_time)
    (w w' : world) :
  scan_parameters min_eigenval from_sample sample params angle_times w = (Ok tt, w') ->
  parameters w' = parameters w
  /\ (forall param p, In param params -> parameters w !! param = Some p ->
        exists p', parameters w' !! param = Some p' /\ value p' = value p).
Proof.
  intros Hrun.
  pose proof (scan_parameters_frame min_eigenval from_sample sample angle_times params
                w tt w' Hrun) as Hsame.
  unfold same_parameters in Hsame. split; [exact Hsame|].
  intros param p _ Hp. exists p. rewrite Hsame. split; [exact Hp | reflexivity].
Qed.

Lemma scan_parameters_restores_values_witness :
  parameters (snd (scan_parameters (fun x : Q => x) toy_from_sample toy_sample
                     [0%nat; 1%nat] [] toy_world))
  = parameters toy_world
  /\ (forall param p, In param [0%nat; 1%nat] -> parameters toy_world !! param = Some p ->
        exists p',
          parameters (snd (scan_parameters (fun x : Q => x) toy_from_sample toy_sample
                             [0%nat; 1%nat] [] toy_world)) !! param = Some p'
          /\ value p' = value p).
Proof.
  apply (scan_parameters_restores_values (fun x : Q => x) toy_from_sample toy_sample
           [0%nat; 1%nat] [] toy_world).
  vm_compute. reflexivity.
Defined.

(** During that run the collaborator does see the values written: the
    scalars plotted for the first Parameter are the hundred values of its
    range, not a hundred copies of its own value. *)
Example scan_parameters_mutates_during_scan :
  exists xlim ylim rest,
    log (snd (scan_parameters (fun x : Q => x) toy_from_sample toy_sample
                [0%nat; 1%nat] [] toy_world))
    = List.map EFromSample (repeat [] 200)
      ++ ESetLim xlim ylim :: EPlot (linspace 80 120 100) (linspace 80 120 100) "thick" :: rest.
Proof. vm_compute. eexists _, _, _. reflexivity. Qed.

(** The write-back is the last statement of the loop body and is not
    protected: when the collaborator raises in the middle of a scan, the
    exception leaves the Parameter at the value last written. *)
Example scan_parameters_interrupted :
  exists e w' p',
    scan_parameters (fun x : Q => x) fragile_from_sample toy_sample [0%nat; 1%nat] []
      toy_world = (Raise e, w')
    /\ parameters w' !! 0%nat = Some p'
    /\ 110 < value p'.
Proof. vm_compute. eexists _, _, _. repeat split. Qed.

(** C7. In the two one-dimensional scans the plan handed to the sample for
    a candidate is the baseline list followed by that one candidate, and
    when the search has completed the baseline list object, like every
    list object that existed before, holds what it held.
    For [angle_choice] the baseline is [initial_angle_times]; for
    [contrast_choice_single] it is [initial_contrasts]. *)
Theorem one_dimensional_scans_append_to_baseline {Fisher : Type}
    (min_eigenval : Fisher -> Q) (sample : BaseSample Fisher) (w : world) :
  (forall initial_angle_times angle_range points_new time_new save_path filename
          contrasts initial cs fisher_at,
     VariableAngle sample = true ->
     angle_range <> [] ->
     plans w !! initial_angle_times = Some initial ->
     match contrasts with
     | None => cs = []
     | Some c => contrast_lists w !! c = Some cs
     end ->
     (forall a, In a angle_range ->
        angle_info sample (initial ++ [(a, points_new, time_new)]) cs = Ok (fisher_at a)) ->
     exists best w',
       angle_choice min_eigenval sample initial_angle_times angle_range points_new
         time_new save_path filename contrasts w = (Ok best, w')
       /\ evaluations (log w') =
          evaluations (log w)
          ++ List.map (fun a => EAngleInfo (initial ++ [(a, points_new, time_new)]) cs)
               angle_range
       /\ plans w' !! initial_angle_times = Some initial
       /\ (forall l p, plans w !! l = Some p -> plans w' !! l = Some p))
  /\ (forall contrast_range initial_contrasts angle_times save_path filename
             initial fisher_at,
        VariableContrast sample = true ->
        contrast_range <> [] ->
        contrast_lists w !! initial_contrasts = Some initial ->
        (forall c, In c contrast_range ->
           contrast_info sample angle_times (initial ++ [c]) = Ok (fisher_at c)) ->
        exists best w',
          contrast_choice_single min_eigenval sample contrast_range initial_contrasts
            angle_times save_path filename w = (Ok best, w')
          /\ evaluations (log w') =
             evaluations (log w)
             ++ List.map (fun c => EContrastInfo angle_times (initial ++ [c])) contrast_range
          /\ contrast_lists w' !! initial_contrasts = Some initial
          /\ (forall l p, contrast_lists w !! l = Some p -> contrast_lists w' !! l = Some p)).
Proof.
  split.
  - intros initial_angle_times angle_range points_new time_new save_path filename
      contrasts initial cs fisher_at Hcap Hne Hb Hcs Hok.
    destruct (angle_choice_run min_eigenval sample initial_angle_times points_new time_new
                initial fisher_at angle_range save_path filename contrasts cs w
                Hcap Hne Hb Hcs Hok)
      as (best & k & w' & Hrun & _ & _ & _ & Hlog & Hplans).
    exists best, w'. split; [exact Hrun|]. split; [exact Hlog|].
    rewrite Hplans. split.
    + apply lookup_app_l_Some. exact Hb.
    + intros l p Hl. apply lookup_app_l_Some. exact Hl.
  - intros contrast_range initial_contrasts angle_times save_path filename
      initial fisher_at Hcap Hne Hb Hok.
    destruct (contrast_choice_single_run min_eigenval sample initial_contrasts angle_times
                initial fisher_at contrast_range save_path filename w Hcap Hne Hb Hok)
      as (best & k & w' & Hrun & _ & _ & _ & Hlog & Hlists).
    exists best, w'. split; [exact Hrun|]. split; [exact Hlog|].
    rewrite Hlists. split.
    + apply lookup_app_l_Some. exact Hb.
    + intros l p Hl. apply lookup_app_l_Some. exact Hl.
Qed.

Lemma one_dimensional_scans_append_to_baseline_witness :
  (exists best w',
     angle_choice (fun x : Q => x) toy_sample 0%nat [1; 2; 3] 100%Z 10 "out" "f" None
       toy_world = (Ok best, w')
     /\ evaluations (log w') =
        evaluations (log toy_world)
        ++ List.map (fun a => EAngleInfo ([(7 # 10, 100%Z, 1000)] ++ [(a, 100%Z, 10)]) [])
             [1; 2; 3]
     /\ plans w' !! 0%nat = Some [(7 # 10, 100%Z, 1000)]
     /\ (forall l p, plans toy_world !! l = Some p -> plans w' !! l = Some p))
  /\ (exists best w',
        contrast_choice_single (fun x : Q => x) toy_sample [1; 2; 3] 0%nat [] "out" "f"
          toy_world = (Ok best, w')
        /\ evaluations (log w') =
           evaluations (log toy_world)
           ++ List.map (fun c => EContrastInfo [] ([6] ++ [c])) [1; 2; 3]
        /\ contrast_lists w' !! 0%nat = Some [6]
        /\ (forall l p, contrast_lists toy_world !! l = Some p ->
              contrast_lists w' !! l = Some p)).
Proof.
  destruct (one_dimensional_scans_append_to_baseline (fun x : Q => x) toy_sample toy_world)
    as (Hangle & Hcontrast).
  split.
  - apply (Hangle 0%nat [1; 2; 3] 100%Z 10 "out" "f" None [(7 # 10, 100%Z, 1000)] []
             (fun a => (a - 2) * (3 - a))).
    + reflexivity.
    + discriminate.
    + reflexivity.
    + reflexivity.
    + intros a _. reflexivity.
  - apply (Hcontrast [1; 2; 3] 0%nat [] "out" "f" [6] (fun c => 6 + (c + 0))).
    + reflexivity.
    + discriminate.
    + reflexivity.
    + intros c _. reflexivity.
Defined.

Import Samples.

(** C6. For a structure that is neither a [refnx.reflect.Structure] nor a
    [refl1d.model.Stack], each of [Sample.__vary_structure],
    [Sample._get_sld_profile] and [Sample._get_reflectivity_profile] raises
    [RuntimeError('invalid structure given')], the error that stands for
    the specification's ConfigurationError.  [_get_reflectivity_profile]
    builds its Q grid first, so it gets that far once [np.geomspace] has
    returned a grid. *)
Theorem invalid_structure_raises {Model : Type}
    (ReflectModel : Structure -> Q -> Q -> Q -> Model)
    (refl1d_experiment : Stack -> list Q -> Q -> Q -> Q -> outcome Model)
    (reflectivity : list Q -> Model -> outcome (list Q))
    (refnx_sld_profile : Structure -> outcome (list Q * list Q))
    (smooth_profile : Model -> outcome (list Q * list Q * list Q))
    (geomspace : Q -> Q -> Z -> outcome (list Q))
    (pmp : Q -> Param -> Param)
    (self : Sample) (bound_size q_min q_max : Q) (points : Z) (scale_ bkg_ dq_ : Q)
    (q : list Q) :
  isinstance_refnx_Structure (structure_ self) = false ->
  isinstance_refl1d_Stack (structure_ self) = false ->
  geomspace q_min q_max points = Ok q ->
  vary_structure pmp (structure_ self) bound_size
  = Raise (RuntimeError "invalid structure given")
  /\ _get_sld_profile refl1d_experiment refnx_sld_profile smooth_profile geomspace self
     = Raise (RuntimeError "invalid structure given")
  /\ _get_reflectivity_profile ReflectModel refl1d_experiment reflectivity geomspace self
       q_min q_max points scale_ bkg_ dq_
     = Raise (RuntimeError "invalid structure given").
Proof.
  intros Hrefnx Hrefl1d Hq.
  unfold vary_structure, _get_sld_profile, _get_reflectivity_profile. rewrite Hq.
  destruct (structure_ self); try discriminate; repeat split.
Qed.

Lemma invalid_structure_raises_witness :
  vary_structure (fun _ p => p) (structure_ mock_sample) (2 # 10)
  = Raise (RuntimeError "invalid structure given")
  /\ _get_sld_profile (fun _ _ _ _ _ => Ok tt) (fun _ => Ok ([], []))
       (fun _ => Ok ([], [], [])) toy_geomspace mock_sample
     = Raise (RuntimeError "invalid structure given")
  /\ _get_reflectivity_profile (fun _ _ _ _ => tt) (fun _ _ _ _ _ => Ok tt)
       (fun q _ => Ok q) toy_geomspace mock_sample
       (5 # 1000) (4 # 10) 500 1 (1 # 10000000) 2
     = Raise (RuntimeError "invalid structure given").
Proof.
  apply (invalid_structure_raises (fun _ _ _ _ => tt) (fun _ _ _ _ _ => Ok tt)
           (fun q _ => Ok q) (fun _ => Ok ([], [])) (fun _ => Ok ([], [], []))
           toy_geomspace (fun _ p => p) mock_sample (2 # 10) (5 # 1000) (4 # 10) 500
           1 (1 # 10000000) 2 [5 # 1000; 4 # 10]).
  - reflexivity.
  - reflexivity.
  - reflexivity.
Defined.

(** C8. [Sample.__init__] does not assign [self.params] (the assignment
    is commented out), so on every constructed sample [angle_info] stops
    at [self.params] with an AttributeError, or earlier inside the
    simulator: it never returns a Fisher object.  On [simple_sample] and a
    simulator that returns data the outcome is the AttributeError. *)
Theorem angle_info_raises_on_constructed_sample {Model Fisher : Type}
    (simulate : structure -> list angle_time -> outcome (Model * list (Q * Q * Q * Q)))
    (Fisher_ : list (list Q) -> list Param -> list (list Q) -> list Model -> Fisher)
    (s : structure) (settings : gmap string Q) (angle_times : list angle_time)
    (contrasts : option (list Q)) :
  is_ok (obind (Sample_init s settings)
           (fun self => angle_info simulate Fisher_ self angle_times contrasts)) = false
  /\ obind simple_sample
       (fun self =>
          angle_info toy_simulate (fun qs _ counts _ => (qs, counts)) self
            [(7 # 10, 100%Z, 100000); (2, 100%Z, 100000)] None)
     = Raise (AttributeError "params").
Proof.
  split; [|reflexivity].
  unfold Sample_init, angle_info.
  destruct (get_name s) as [nm|e]; [|reflexivity]. cbn [obind structure_].
  destruct (simulate s angle_times) as [[model data]|e]; reflexivity.
Qed.

(** With [params] assigned by hand the same call returns the Fisher object
    of the simulated Q values and counts. *)
Example angle_info_with_params :
  angle_info toy_simulate (fun qs _ counts _ => (qs, counts)) four_layer_sample
    [(7 # 10, 100%Z, 100000); (2, 100%Z, 100000)] None
  = Ok ([[7 # 10; 2]], [[100000; 100000]]).
Proof. reflexivity. Qed.



(** On a sample with a magnetic layer the two copies carry the two spin
    states in its place. *)
Example get_structures_magnetic :
  exists up down,
    get_structures magnetic_sample = Ok [RefnxStructure up; RefnxStructure down]
    /\ List.map (fun c => (name c, value (real (sld c)))) (data up)
       = [("Air"%string, 0); ("spin_up"%string, 5 * 1 + (1 # 10) * 5 * 6);
          ("underlayer"%string, 6)]
    /\ List.map (fun c => (name c, value (real (sld c)))) (data down)
       = [("Air"%string, 0); ("spin_down"%string, 5 * 1 - (1 # 10) * 5 * 6);
          ("underlayer"%string, 6)].
Proof. eexists _, _. split; [reflexivity|]. split; reflexivity. Qed.

(** C10, as the specification states it, fails on a refnx structure of a
    single component: [to_refl1d] leaves a bare Refl1D material in
    [self.structure], not a stack, and the [assert] of [to_refnx] rejects
    it. *)
Lemma roundtrip_fails_on_single_component :
  isinstance_refnx_Structure (structure_ air_only_sample) = true
  /\ (exists converted,
        to_refl1d air_only_sample = Ok converted
        /\ isinstance_refl1d_Stack (structure_ converted) = false)
  /\ obind (to_refl1d air_only_sample) to_refnx = Raise AssertionError.
Proof.
  split; [reflexivity|]. split; [|reflexivity].
  eexists. split; reflexivity.
Qed.

(** C10, amended. For a sample whose refnx structure has at least two
    components, [to_refl1d] followed by [to_refnx] yields a refnx structure
    of as many components, and each component after the first has the
    name, real SLD, imaginary SLD, thickness and roughness of the
    component at the same position of the original structure. *)
Theorem roundtrip_layers_preserved (self : Sample) (s : Structure) :
  structure_ self = RefnxStructure s ->
  (2 <= length (data s))%nat ->
  exists converted s',
    obind (to_refl1d self) to_refnx = Ok converted
    /\ structure_ converted = RefnxStructure s'
    /\ length (data s') = length (data s)
    /\ (forall i c, (1 <= i)%nat -> data s !! i = Some c ->
          exists c',
            data s' !! i = Some c'
            /\ name c' = name c
            /\ value (real (sld c')) = value (real (sld c))
            /\ value (imag (sld c')) = value (imag (sld c))
            /\ value (thick c') = value (thick c)
            /\ value (rough c') = value (rough c)).
Proof.
  intros Hs Hlen. rewrite (roundtrip_run self s Hs Hlen).
  eexists _, _. split; [reflexivity|]. split; [reflexivity|].
  cbn [data length]. rewrite length_map, length_drop. split; [lia|].
  intros [|i] c Hi Hc; [lia|].
  rewrite lookup_cons_ne_0 by lia. cbn [Nat.pred].
  rewrite lookup_map, lookup_drop. change (1 + i)%nat with (S i). rewrite Hc.
  eexists. split; [reflexivity|]. repeat split.
Qed.

Lemma roundtrip_layers_preserved_witness :
  exists converted s',
    obind (to_refl1d four_layer_sample) to_refnx = Ok converted
    /\ structure_ converted = RefnxStructure s'
    /\ length (data s') = 4%nat
    /\ (forall i c, (1 <= i)%nat ->
          [air;
           slab_of (SLD_ 4 "Layer 1") (fixed 100) (fixed 2);
           slab_of (SLD_ 8 "Layer 2") (fixed 150) (fixed 2);
           slab_of (SLD_ (2047 # 1000) "Substrate") (fixed 0) (fixed 2)] !! i = Some c ->
          exists c',
            data s' !! i = Some c'
            /\ name c' = name c
            /\ value (real (sld c')) = value (real (sld c))
            /\ value (imag (sld c')) = value (imag (sld c))
            /\ value (thick c') = value (thick c)
            /\ value (rough c') = value (rough c)).
Proof.
  apply (roundtrip_layers_preserved four_layer_sample
           (Structure_of
              [air;
               slab_of (SLD_ 4 "Layer 1") (fixed 100) (fixed 2);
               slab_of (SLD_ 8 "Layer 2") (fixed 150) (fixed 2);
               slab_of (SLD_ (2047 # 1000) "Substrate") (fixed 0) (fixed 2)]
              "simple_sample")).
  - reflexivity.
  - simpl. lia.
Defined.

(** * Further properties of the drivers *)

Import Visualise Examples.

(** X1. [contrast_choice_single] on a non-empty range, for a sample that
    supports the contrast axis and answers every candidate: the returned
    contrast is a candidate of the range whose scalar is at least that of
    every candidate and strictly above that of every earlier one. *)
Theorem contrast_choice_single_first_maximum {Fisher : Type} (min_eigenval : Fisher -> Q)
    (sample : BaseSample Fisher) (contrast_range : list Q) (initial_contrasts : loc)
    (angle_times : list angle_time) (save_path filename : string)
    (initial : list Q) (fisher_at : Q -> Fisher) (w : world) :
  VariableContrast sample = true ->
  contrast_range <> [] ->
  contrast_lists w !! initial_contrasts = Some initial ->
  (forall c, In c contrast_range ->
     contrast_info sample angle_times (initial ++ [c]) = Ok (fisher_at c)) ->
  exists best k w',
    contrast_choice_single min_eigenval sample contrast_range initial_contrasts angle_times
      save_path filename w = (Ok best, w')
    /\ contrast_range !! k = Some best
    /\ (forall j c, contrast_range !! j = Some c ->
          min_eigenval (fisher_at c) <= min_eigenval (fisher_at best))
    /\ (forall j c, (j < k)%nat -> contrast_range !! j = Some c ->
          min_eigenval (fisher_at c) < min_eigenval (fisher_at best)).
Proof.
  intros Hcap Hne Hb Hok.
  destruct (contrast_choice_single_run min_eigenval sample initial_contrasts angle_times
              initial fisher_at contrast_range save_path filename w Hcap Hne Hb Hok)
    as (best & k & w' & Hrun & Hk & Hmax & Hfirst & _ & _).
  exists best, k, w'. split; [exact Hrun|]. split; [exact Hk|]. split; assumption.
Qed.

Lemma contrast_choice_single_first_maximum_witness :
  exists best k w',
    contrast_choice_single (fun x : Q => x) toy_sample [1; 3; 3; 2] 0%nat [] "out" "f"
      toy_world = (Ok best, w')
    /\ [1; 3; 3; 2] !! k = Some best
    /\ (forall j c, [1; 3; 3; 2] !! j = Some c -> 6 + (c + 0) <= 6 + (best + 0))
    /\ (forall j c, (j < k)%nat -> [1; 3; 3; 2] !! j = Some c ->
          6 + (c + 0) < 6 + (best + 0)).
Proof.
  apply (contrast_choice_single_first_maximum (fun x : Q => x) toy_sample [1; 3; 3; 2]
           0%nat [] "out" "f" [6] (fun c => 6 + (c + 0)) toy_world).
  - reflexivity.
  - discriminate.
  - reflexivity.
  - intros c _. reflexivity.
Defined.





(** ** Degenerate candidate sets *)

(** X4. On an empty range the one-dimensional scans evaluate nothing,
    still plot and save a figure without data, and then fail in
    [np.argmax] with a ValueError instead of returning a candidate. *)
Theorem one_dimensional_scans_on_empty_range {Fisher : Type} (min_eigenval : Fisher -> Q)
    (sample : BaseSample Fisher) (w : world) :
  (VariableAngle sample = true ->
   forall initial_angle_times points_new time_new save_path filename contrasts,
   exists w',
     angle_choice min_eigenval sample initial_angle_times [] points_new time_new
       save_path filename contrasts w
     = (Raise (ValueError "attempt to get argmax of an empty sequence"), w')
     /\ log w' =
        log w ++ [EPlot [] [] EmptyString;
                  ESavePlot (os_path_join save_path (name sample))
                    ("angle_choice_" +:+ filename)]
     /\ plans w' = plans w)
  /\ (VariableContrast sample = true ->
      forall initial_contrasts angle_times save_path filename,
      exists w',
        contrast_choice_single min_eigenval sample [] initial_contrasts angle_times
          save_path filename w
        = (Raise (ValueError "attempt to get argmax of an empty sequence"), w')
        /\ log w' =
           log w ++ [EPlot [] [] EmptyString;
                     ESavePlot (os_path_join save_path (name sample))
                       ("contrast_choice_single_" +:+ filename)]
        /\ contrast_lists w' = contrast_lists w).
Proof.
  split; intros Hcap; intros.
  - unfold angle_choice. rewrite Hcap.
    destruct contrasts as [c|]; eexists; (split; [reflexivity|]); cbn [log plans];
      rewrite <- app_assoc; split; reflexivity.
  - unfold contrast_choice_single. rewrite Hcap.
    eexists. split; [reflexivity|]. cbn [log contrast_lists].
    rewrite <- app_assoc. split; reflexivity.
Qed.

Lemma one_dimensional_scans_on_empty_range_witness :
  (exists w',
     angle_choice (fun x : Q => x) toy_sample 0%nat [] 100%Z 10 "out" "f" None toy_world
     = (Raise (ValueError "attempt to get argmax of an empty sequence"), w')
     /\ log w' =
        log toy_world ++ [EPlot [] [] EmptyString;
                          ESavePlot (os_path_join "out" (name toy_sample))
                            ("angle_choice_" +:+ "f")]
     /\ plans w' = plans toy_world)
  /\ (exists w',
        contrast_choice_single (fun x : Q => x) toy_sample [] 0%nat [] "out" "f" toy_world
        = (Raise (ValueError "attempt to get argmax of an empty sequence"), w')
        /\ log w' =
           log toy_world ++ [EPlot [] [] EmptyString;
                             ESavePlot (os_path_join "out" (name toy_sample))
                               ("contrast_choice_single_" +:+ "f")]
        /\ contrast_lists w' = contrast_lists toy_world).
Proof.
  destruct (one_dimensional_scans_on_empty_range (fun x : Q => x) toy_sample toy_world)
    as (Hangle & Hcontrast).
  split.
  - apply Hangle. reflexivity.
  - apply Hcontrast. reflexivity.
Defined.

(** X5. Searches that have nothing to search stop before they do
    anything: [contrast_choice_double] on fewer than two candidates fails at
    [contrasts[:, 0]] with an IndexError, and [scan_parameters] on an empty
    parameter list fails in [np.max] with a ValueError; in both cases
    nothing was evaluated, printed, plotted or changed. *)
Theorem searches_without_candidates_stop_at_once {Fisher : Type}
    (min_eigenval : Fisher -> Q)
    (from_sample : list Parameter_ -> BaseSample Fisher -> list angle_time -> outcome Fisher)
    (sample : BaseSample Fisher) (contrast_range : list Q)
    (angle_times : list angle_time) (save_path : string) (w : world) :
  VariableContrast sample = true ->
  (length contrast_range < 2)%nat ->
  contrast_choice_double min_eigenval sample contrast_range angle_times save_path w
  = (Raise IndexError, w)
  /\ scan_parameters min_eigenval from_sample sample [] angle_times w
     = (Raise (ValueError
                 "zero-size array to reduction operation maximum which has no identity"),
        w).
Proof.
  intros Hcap Hlen. split; [|reflexivity].
  unfold contrast_choice_double. rewrite Hcap.
  destruct contrast_range as [|a [|b t]]; cbn [length] in Hlen; try lia; reflexivity.
Qed.

Lemma searches_without_candidates_stop_at_once_witness :
  contrast_choice_double (fun x : Q => x) toy_sample [5] [] "out" toy_world
  = (Raise IndexError, toy_world)
  /\ scan_parameters (fun x : Q => x) toy_from_sample toy_sample [] [] toy_world
     = (Raise (ValueError
                 "zero-size array to reduction operation maximum which has no identity"),
        toy_world).
Proof.
  apply (searches_without_candidates_stop_at_once (fun x : Q => x) toy_from_sample
           toy_sample [5] [] "out" toy_world).
  - reflexivity.
  - simpl. lia.
Defined.




(** ** A failing evaluation *)

Import Frame.

Lemma for_each_app {A S} (xs ys : list A) (body : S -> A -> M S) : forall (s : S) w,
  for_each (xs ++ ys) body s w = (s' <- for_each xs body s ; for_each ys body s') w.
Proof.
  induction xs as [|x t IH]; intros s w; cbn [app for_each].
  - reflexivity.
  - unfold bind at 1 2 3. destruct (body s x w) as [[s1|e] w1]; [|reflexivity].
    rewrite IH. reflexivity.
Qed.

Lemma enumerate_from_app {A} (xs ys : list A) : forall k,
  enumerate_from k (xs ++ ys)
  = enumerate_from k xs ++ enumerate_from (k + length xs) ys.
Proof.
  induction xs as [|x t IH]; intros k; cbn [app enumerate_from length].
  - rewrite Nat.add_0_r. reflexivity.
  - rewrite IH. do 3 f_equal. lia.
Qed.

Lemma saves_nothing_refl w : saves_nothing w w.
Proof. intros p f H. exact H. Qed.

Lemma saves_nothing_trans w1 w2 w3 :
  saves_nothing w1 w2 -> saves_nothing w2 w3 -> saves_nothing w1 w3.
Proof. intros H12 H23 p f H. apply H12, H23, H. Qed.

Lemma saves_nothing_same_log {A} (m : M A) :
  (forall w r w', m w = (r, w') -> log w' = log w) -> preserves saves_nothing m.
Proof. intros Hm w r w' Hrun p f. rewrite (Hm w r w' Hrun). auto. Qed.

Lemma saves_nothing_emit (e : event) :
  (forall p f, e <> ESavePlot p f) -> preserves saves_nothing (emit e).
Proof.
  intros He w r w' Hrun. injection Hrun as _ <-. intros p f Hin. cbn [log] in Hin.
  apply in_app_or in Hin. destruct Hin as [Hin|[Hin|[]]]; [exact Hin|].
  exfalso. exact (He p f Hin).
Qed.

Lemma saves_nothing_when_print cond i n :
  preserves saves_nothing (when cond (print_progress i n)).
Proof.
  destruct cond; cbn [when].
  - apply saves_nothing_emit. discriminate.
  - apply preserves_ret, saves_nothing_refl.
Qed.

Lemma saves_nothing_read_plan l : preserves saves_nothing (read_plan l).
Proof.
  apply saves_nothing_same_log. intros w r w'. unfold read_plan.
  destruct (plans w !! l); intros H; injection H as _ <-; reflexivity.
Qed.

Lemma saves_nothing_read_contrasts l : preserves saves_nothing (read_contrasts l).
Proof.
  apply saves_nothing_same_log. intros w r w'. unfold read_contrasts.
  destruct (contrast_lists w !! l); intros H; injection H as _ <-; reflexivity.
Qed.

Lemma saves_nothing_new_plan p : preserves saves_nothing (new_plan p).
Proof.
  apply saves_nothing_same_log. intros w r w' H. injection H as _ <-. reflexivity.
Qed.

Lemma saves_nothing_call_angle_info {Fisher : Type} (sample : BaseSample Fisher) l c :
  preserves saves_nothing (call_angle_info sample l c).
Proof.
  unfold call_angle_info.
  apply (preserves_bind _ saves_nothing_trans); [apply saves_nothing_read_plan|]. intros p.
  apply (preserves_bind _ saves_nothing_trans); [apply saves_nothing_read_contrasts|].
  intros cs.
  apply (preserves_bind _ saves_nothing_trans).
  - apply saves_nothing_emit. discriminate.
  - intros _. apply preserves_lift, saves_nothing_refl.
Qed.

Section AngleChoiceFailure.

Context {Fisher : Type} (min_eigenval : Fisher -> Q).
Variables (sample : BaseSample Fisher) (initial_angle_times : loc).
Variables (points_new : Z) (time_new : Q).
Variables (initial : list angle_time) (fisher_at : Q -> Fisher).

Local Abbreviation new_plan_for a := (initial ++ [(a, points_new, time_new)]).

Lemma angle_choice_loop_saves_nothing (contrasts : loc) (n : nat)
    (xs : list (nat * Q)) (acc : list Q) :
  preserves saves_nothing
    (for_each xs
       (fun min_eigs '(i, angle_new) =>
          when (i mod 100 =? 0)%nat (print_progress i n) ;;
          initial <- read_plan initial_angle_times ;
          new_angle_times <- new_plan (initial ++ [(angle_new, points_new, time_new)]) ;
          fisher_new <- call_angle_info sample new_angle_times contrasts ;
          ret (min_eigs ++ [min_eigenval fisher_new]))
       acc).
Proof.
  apply (preserves_for_each _ saves_nothing_refl saves_nothing_trans).
  intros s [i a].
  apply (preserves_bind _ saves_nothing_trans); [apply saves_nothing_when_print|].
  intros _.
  apply (preserves_bind _ saves_nothing_trans); [apply saves_nothing_read_plan|].
  intros p.
  apply (preserves_bind _ saves_nothing_trans); [apply saves_nothing_new_plan|].
  intros l.
  apply (preserves_bind _ saves_nothing_trans); [apply saves_nothing_call_angle_info|].
  intros f. apply preserves_ret, saves_nothing_refl.
Qed.

Lemma angle_choice_body_raises (contrasts : loc) (cs : list Q) (n k : nat)
    (acc : list Q) (a : Q) (e : exn) w :
  plans w !! initial_angle_times = Some initial ->
  contrast_lists w !! contrasts = Some cs ->
  angle_info sample (new_plan_for a) cs = Raise e ->
  exists w',
    (when (k mod 100 =? 0)%nat (print_progress k n) ;;
     initial <- read_plan initial_angle_times ;
     new_angle_times <- new_plan (initial ++ [(a, points_new, time_new)]) ;
     fisher_new <- call_angle_info sample new_angle_times contrasts ;
     ret (acc ++ [min_eigenval fisher_new])) w
    = (Raise e, w')
    /\ plans w' = plans w ++ [new_plan_for a]
    /\ evaluations (log w') = evaluations (log w) ++ [EAngleInfo (new_plan_for a) cs].
Proof.
  intros Hb Hc Hbad.
  destruct (when_print_progress (k mod 100 =? 0)%nat k n w)
    as (w1 & Hrun1 & Hp1 & Hc1 & Hq1 & Hl1).
  rewrite (bind_ok _ _ _ _ _ Hrun1).
  rewrite (bind_ok _ _ w1 initial w1) by (apply read_plan_ok; congruence).
  unfold bind at 1. simpl.
  unfold call_angle_info, bind, read_plan, read_contrasts, emit, lift, ret. simpl.
  rewrite list_lookup_middle by reflexivity.
  simpl. rewrite Hc1, Hc. simpl. rewrite Hbad. eexists. split; [reflexivity|]. simpl.
  rewrite ?Hp1, evaluations_app, Hl1. split; reflexivity.
Qed.

End AngleChoiceFailure.

(** X7. [angle_choice] has no handler around the evaluation: when
    [angle_info] raises on a candidate after answering the ones before it,
    the search stops with that very exception.  By then [angle_info] has
    been called on the candidates up to and including the failing one, in
    order and once each; no figure has been saved; the baseline plan is
    unchanged. *)
Theorem angle_choice_propagates_failure {Fisher : Type} (min_eigenval : Fisher -> Q)
    (sample : BaseSample Fisher) (initial_angle_times : loc)
    (before after : list Q) (failing : Q)
    (points_new : Z) (time_new : Q) (save_path filename : string)
    (contrasts : option loc) (initial : list angle_time) (cs : list Q)
    (fisher_at : Q -> Fisher) (e : exn) (w : world) :
  VariableAngle sample = true ->
  plans w !! initial_angle_times = Some initial ->
  match contrasts with
  | None => cs = []
  | Some c => contrast_lists w !! c = Some cs
  end ->
  (forall a, In a before ->
     angle_info sample (initial ++ [(a, points_new, time_new)]) cs = Ok (fisher_at a)) ->
  angle_info sample (initial ++ [(failing, points_new, time_new)]) cs = Raise e ->
  exists w',
    angle_choice min_eigenval sample initial_angle_times (before ++ failing :: after)
      points_new time_new save_path filename contrasts w = (Raise e, w')
    /\ evaluations (log w') =
       evaluations (log w)
       ++ List.map (fun a => EAngleInfo (initial ++ [(a, points_new, time_new)]) cs)
            (before ++ [failing])
    /\ saves_nothing w w'
    /\ plans w' !! initial_angle_times = Some initial.
Proof.
  intros Hcap Hb Hcs Hok Hbad.
  unfold angle_choice. rewrite Hcap. cbn [assert_].
  rewrite (bind_ok _ _ w tt w) by reflexivity.
  assert (exists c w0, match contrasts with
                       | Some c => ret c
                       | None => new_contrasts []
                       end w = (Ok c, w0)
            /\ contrast_lists w0 !! c = Some cs /\ plans w0 = plans w
            /\ log w0 = log w) as (c & w0 & Hrun0 & Hc0 & Hp0 & Hl0).
  { destruct contrasts as [c|].
    - exists c, w. repeat split. exact Hcs.
    - subst cs. eexists _, _. split; [reflexivity|]. simpl. repeat split.
      apply list_lookup_middle. reflexivity. }
  rewrite (bind_ok _ _ _ _ _ Hrun0).
  set (n := length (before ++ failing :: after)).
  destruct (angle_choice_loop min_eigenval sample initial_angle_times points_new time_new
              initial fisher_at c cs n before 0%nat [] w0)
    as (w1 & Hrun1 & Hp1 & Hc1 & _ & Hl1); [congruence | exact Hc0 | exact Hok |].
  destruct (angle_choice_body_raises min_eigenval sample initial_angle_times points_new
              time_new initial c cs n (0 + length before)%nat
              ([] ++ List.map (fun a => min_eigenval (fisher_at a)) before) failing e w1)
    as (w2 & Hrun2 & Hp2 & Hl2).
  { rewrite Hp1. apply lookup_app_l_Some. rewrite Hp0. exact Hb. }
  { rewrite Hc1. exact Hc0. }
  { exact Hbad. }
  assert (Hloop :
    for_each (enumerate (before ++ failing :: after))
      (fun min_eigs '(i, angle_new) =>
         when (i mod 100 =? 0)%nat (print_progress i n) ;;
         initial <- read_plan initial_angle_times ;
         new_angle_times <- new_plan (initial ++ [(angle_new, points_new, time_new)]) ;
         fisher_new <- call_angle_info sample new_angle_times c ;
         ret (min_eigs ++ [min_eigenval fisher_new])) [] w0
    = (Raise e, w2)).
  { unfold enumerate. rewrite enumerate_from_app, for_each_app.
    rewrite (bind_ok _ _ _ _ _ Hrun1). cbn [enumerate_from for_each].
    apply bind_raise. exact Hrun2. }
  exists w2. split.
  { apply bind_raise. exact Hloop. }
  split; [|split].
  - rewrite Hl2, Hl1, Hl0, List.map_app, <- app_assoc. reflexivity.
  - pose proof (angle_choice_loop_saves_nothing min_eigenval sample initial_angle_times
                  points_new time_new c n _ _ _ _ _ Hloop) as Hsave.
    intros p f Hin. specialize (Hsave p f Hin). rewrite Hl0 in Hsave. exact Hsave.
  - rewrite Hp2, Hp1, Hp0, <- app_assoc. apply lookup_app_l_Some. exact Hb.
Qed.

Lemma angle_choice_propagates_failure_witness :
  exists w',
    angle_choice (fun x : Q => x) fragile_sample 0%nat ([1; 2] ++ 3 :: [5 # 2]) 100%Z 10
      "out" "f" None toy_world
    = (Raise (OtherError "simulation failed"), w')
    /\ evaluations (log w') =
       evaluations (log toy_world)
       ++ List.map (fun a => EAngleInfo ([(7 # 10, 100%Z, 1000)] ++ [(a, 100%Z, 10)]) [])
            ([1; 2] ++ [3])
    /\ saves_nothing toy_world w'
    /\ plans w' !! 0%nat = Some [(7 # 10, 100%Z, 1000)].
Proof.
  apply (angle_choice_propagates_failure (fun x : Q => x) fragile_sample 0%nat [1; 2]
           [5 # 2] 3 100%Z 10 "out" "f" None [(7 # 10, 100%Z, 1000)] []
           (fun a => (a - 2) * (3 - a)) (OtherError "simulation failed") toy_world).
  - reflexivity.
  - reflexivity.
  - reflexivity.
  - intros a [<-|[<-|[]]]; reflexivity.
  - reflexivity.
Defined.

(** ** [angle_choice_with_time] *)




Section AngleChoiceWithTime.

Context {Fisher : Type} (min_eigenval : Fisher -> Q).
Variables (sample : BaseSample Fisher) (initial_angle : Q) (points : Z) (new_time : Q).
Variables (contrasts : loc) (cs : list Q) (fisher_at : Q -> Q -> Fisher).

Local Abbreviation plan_for time a :=
  ([(initial_angle, points, time); (a, points, new_time)]).
Local Abbreviation scalar time a := (min_eigenval (fisher_at time a)).



Lemma min_max_of_nonempty (l : list Q) w :
  l <> [] ->
  exists lo hi, min_of l w = (Ok lo, w) /\ max_of l w = (Ok hi, w).
Proof.
  destruct l as [|x t]; [congruence|]. intros _. eexists _, _. split; reflexivity.
Qed.



End AngleChoiceWithTime.



(** ** What [scan_parameters] plots *)

Lemma linspace_length (start stop : Q) (num : nat) : length (linspace start stop num) = num.
Proof.
  unfold linspace. destruct (1 <? num)%nat.
  - rewrite length_insert, length_map, length_seq. reflexivity.
  - rewrite length_map, length_seq. reflexivity.
Qed.

Section ScanParametersCurves.

Context {Fisher : Type} (min_eigenval : Fisher -> Q).
Variable from_sample : list Parameter_ -> BaseSample Fisher -> list angle_time -> outcome Fisher.
Variables (sample : BaseSample Fisher) (angle_times : list angle_time).
Variable fisher_of : list Parameter_ -> Fisher.
Hypothesis from_sample_answers :
  forall sigma, from_sample sigma sample angle_times = Ok (fisher_of sigma).
Variable sigma : list Parameter_.

(** The scalar as a function of one Parameter, the others as they are. *)
Local Abbreviation scalar_at param par v :=
  (min_eigenval (fisher_of (<[param := set_value v par]> sigma))).
Local Abbreviation range_of par := (linspace (bounds_lb par) (bounds_ub par) 100).

Lemma scan_values_loop (param : loc) (par : Parameter_) (vs : list Q) : forall acc w,
  sigma !! param = Some par ->
  value_written sigma param par w ->
  exists w',
    for_each vs
      (fun eigenvals v =>
         write_value param v ;;
         fisher <- call_from_sample from_sample sample angle_times ;
         ret (eigenvals ++ [min_eigenval fisher]))
      acc w
    = (Ok (acc ++ List.map (fun v => scalar_at param par v) vs), w')
    /\ value_written sigma param par w'
    /\ log w' = log w ++ List.map (fun _ => EFromSample angle_times) vs.
Proof.
  induction vs as [|v t IH]; intros acc w Hp Hw; cbn [for_each List.map].
  - exists w. rewrite !app_nil_r. repeat split. exact Hw.
  - destruct Hw as [v0 Hv0].
    assert (Hstep :
      (write_value param v ;;
       fisher <- call_from_sample from_sample sample angle_times ;
       ret (acc ++ [min_eigenval fisher])) w
      = (Ok (acc ++ [scalar_at param par v]),
         {| plans := plans w; contrast_lists := contrast_lists w;
            parameters := <[param := set_value v par]> sigma;
            log := log w ++ [EFromSample angle_times] |})).
    { unfold call_from_sample. unfold bind, write_value, emit, ret. rewrite Hv0.
      rewrite list_lookup_insert_eq by (eapply lookup_lt_Some; exact Hp).
      cbn [plans contrast_lists parameters log].
      rewrite list_insert_insert_eq, from_sample_answers. reflexivity. }
    rewrite (bind_ok _ _ _ _ _ Hstep). cbv beta.
    match type of Hstep with
    | _ = (_, ?w1) =>
        destruct (IH (acc ++ [scalar_at param par v]) w1 Hp)
          as (w2 & Hrun2 & Hw2 & Hl2)
    end.
    { exists v. reflexivity. }
    exists w2. rewrite Hrun2, Hl2. cbn [log]. rewrite <- !app_assoc.
    repeat split. exact Hw2.
Qed.

Lemma scan_one_parameter_curve (param_values eigenval_list : list (list Q))
    (param : loc) (par : Parameter_) w :
  parameters w = sigma ->
  sigma !! param = Some par ->
  exists w',
    (p <- read_parameter param ;
     let lb := bounds_lb p in
     let ub := bounds_ub p in
     let old_value := value p in
     let param_range := linspace lb ub 100 in
     eigenvals <- for_each param_range
       (fun eigenvals v =>
          write_value param v ;;
          fisher <- call_from_sample from_sample sample angle_times ;
          ret (eigenvals ++ [min_eigenval fisher]))
       [] ;
     write_value param old_value ;;
     ret (param_values ++ [param_range], eigenval_list ++ [eigenvals])) w
    = (Ok (param_values ++ [range_of par],
           eigenval_list ++ [List.map (fun v => scalar_at param par v) (range_of par)]),
       w')
    /\ parameters w' = sigma
    /\ log w' = log w ++ List.map (fun _ => EFromSample angle_times) (range_of par).
Proof.
  intros Hsig Hp.
  assert (Hid : set_value (value par) par = par) by (destruct par; reflexivity).
  assert (Hread : read_parameter param w = (Ok par, w)).
  { unfold read_parameter. rewrite Hsig, Hp. reflexivity. }
  rewrite (bind_ok _ _ _ _ _ Hread). cbv zeta.
  destruct (scan_values_loop param par (range_of par) [] w Hp)
    as (w1 & Hrun1 & [v1 Hv1] & Hl1).
  { exists (value par). rewrite Hid, Hsig. symmetry. apply list_insert_id. exact Hp. }
  rewrite (bind_ok _ _ _ _ _ Hrun1). cbn [app].
  unfold bind, write_value, ret. rewrite Hv1.
  rewrite list_lookup_insert_eq by (eapply lookup_lt_Some; exact Hp).
  eexists. split; [reflexivity|]. cbn [parameters log]. split; [|exact Hl1].
  rewrite list_insert_insert_eq.
  change (set_value (value par) (set_value v1 par)) with (set_value (value par) par).
  rewrite Hid. apply list_insert_id. exact Hp.
Qed.

Local Abbreviation range_at param :=
  (match sigma !! param with Some par => range_of par | None => [] end).
Local Abbreviation curve_at param :=
  (match sigma !! param with
   | Some par => List.map (fun v => scalar_at param par v) (range_of par)
   | None => []
   end).

Lemma scan_all_parameters (params : list loc) : forall param_values eigenval_list w,
  parameters w = sigma ->
  (forall param, In param params -> is_Some (sigma !! param)) ->
  exists w',
    for_each params
      (fun '(param_values, eigenval_list) param =>
         p <- read_parameter param ;
         let lb := bounds_lb p in
         let ub := bounds_ub p in
         let old_value := value p in
         let param_range := linspace lb ub 100 in
         eigenvals <- for_each param_range
           (fun eigenvals v =>
              write_value param v ;;
              fisher <- call_from_sample from_sample sample angle_times ;
              ret (eigenvals ++ [min_eigenval fisher]))
           [] ;
         write_value param old_value ;;
         ret (param_values ++ [param_range], eigenval_list ++ [eigenvals]))
      (param_values, eigenval_list) w
    = (Ok (param_values ++ List.map (fun param => range_at param) params,
           eigenval_list ++ List.map (fun param => curve_at param) params), w')
    /\ parameters w' = sigma
    /\ (exists extra, log w' = log w ++ extra
          /\ length (evaluations extra) = (100 * length params)%nat).
Proof.
  induction params as [|param t IH]; intros pv el w Hsig Hvalid; cbn [for_each List.map].
  - exists w. rewrite !app_nil_r. split; [reflexivity|]. split; [exact Hsig|].
    exists []. rewrite app_nil_r. split; reflexivity.
  - destruct (Hvalid param (or_introl eq_refl)) as [par Hp].
    destruct (scan_one_parameter_curve pv el param par w Hsig Hp)
      as (w1 & Hrun1 & Hsig1 & Hl1).
    rewrite (bind_ok _ _ _ _ _ Hrun1). cbv beta.
    destruct (IH (pv ++ [range_of par])
                (el ++ [List.map (fun v => scalar_at param par v) (range_of par)]) w1 Hsig1)
      as (w2 & Hrun2 & Hsig2 & (lx & Hl2 & Hn2)).
    { intros param' Hin. apply Hvalid. right. exact Hin. }
    exists w2. rewrite Hp. rewrite <- !app_assoc in Hrun2. split; [exact Hrun2|].
    split; [exact Hsig2|].
    exists (List.map (fun _ => EFromSample angle_times) (range_of par) ++ lx).
    split; [rewrite Hl2, Hl1, <- app_assoc; reflexivity|].
    rewrite evaluations_app, length_app, Hn2.
    assert (Hall : forall l : list Q,
              evaluations (List.map (fun _ => EFromSample angle_times) l)
              = List.map (fun _ => EFromSample angle_times) l).
    { induction l as [|x l IHl]; [reflexivity|]. cbn. unfold evaluations in IHl.
      rewrite IHl. reflexivity. }
    rewrite Hall, length_map, linspace_length. cbn [length]. lia.
Qed.

(** The loop that draws one figure per Parameter. *)
Lemma plot_all_parameters (ymax : Q) (params : list loc) (ps : list loc) :
  forall pre w,
  params = pre ++ ps ->
  parameters w = sigma ->
  (forall param, In param ps -> is_Some (sigma !! param)) ->
  exists w',
    for_each (enumerate_from (length pre) ps)
      (fun _ '(i, param) =>
         p <- read_parameter param ;
         xs <- getitem (List.map (fun param => range_at param) params) i ;
         ys <- getitem (List.map (fun param => curve_at param) params) i ;
         xmin <- min_of xs ;
         xmax <- max_of xs ;
         emit (ESetLim (xmin, xmax) (0, (105 # 100) * ymax)) ;;
         emit (EPlot xs ys (param_name p)))
      tt w
    = (Ok tt, w')
    /\ parameters w' = sigma
    /\ (exists extra, log w' = log w ++ extra
          /\ evaluations extra = []
          /\ (forall param par, In param ps -> sigma !! param = Some par ->
                In (EPlot (range_of par)
                      (List.map (fun v => scalar_at param par v) (range_of par))
                      (param_name par)) extra)).
Proof.
  induction ps as [|param t IH]; intros pre w Hparams Hsig Hvalid;
    cbn [enumerate_from for_each].
  - exists w. split; [reflexivity|]. split; [exact Hsig|].
    exists []. rewrite app_nil_r. split; [reflexivity|]. split; [reflexivity|].
    intros param par [].
  - destruct (Hvalid param (or_introl eq_refl)) as [par Hp].
    assert (Hi : params !! length pre = Some param).
    { rewrite Hparams. apply list_lookup_middle. reflexivity. }
    assert (Hread : read_parameter param w = (Ok par, w)).
    { unfold read_parameter. rewrite Hsig, Hp. reflexivity. }
    assert (Hne : range_of par <> []).
    { intros Hnil. pose proof (linspace_length (bounds_lb par) (bounds_ub par) 100) as Hl.
      rewrite Hnil in Hl. discriminate. }
    destruct (min_max_of_nonempty (range_of par) w Hne) as (lo & hi & Hlo & Hhi).
    assert (Hstep :
      (p <- read_parameter param ;
       xs <- getitem (List.map (fun param => range_at param) params) (length pre) ;
       ys <- getitem (List.map (fun param => curve_at param) params) (length pre) ;
       xmin <- min_of xs ;
       xmax <- max_of xs ;
       emit (ESetLim (xmin, xmax) (0, (105 # 100) * ymax)) ;;
       emit (EPlot xs ys (param_name p))) w
      = (Ok tt,
         {| plans := plans w; contrast_lists := contrast_lists w;
            parameters := parameters w;
            log := log w ++ [ESetLim (lo, hi) (0, (105 # 100) * ymax);
                             EPlot (range_of par)
                               (List.map (fun v => scalar_at param par v) (range_of par))
                               (param_name par)] |})).
    { rewrite (bind_ok _ _ _ _ _ Hread). unfold getitem.
      rewrite !lookup_map, Hi. cbn [option_map]. rewrite Hp.
      rewrite (bind_ok (ret _) _ w _ w eq_refl), (bind_ok (ret _) _ w _ w eq_refl).
      rewrite (bind_ok _ _ _ _ _ Hlo), (bind_ok _ _ _ _ _ Hhi).
      unfold bind, emit. cbn [plans contrast_lists parameters log].
      rewrite <- app_assoc. reflexivity. }
    rewrite (bind_ok _ _ _ _ _ Hstep). cbv beta.
    match type of Hstep with
    | _ = (_, ?w1) =>
        destruct (IH (pre ++ [param]) w1) as (w2 & Hrun2 & Hsig2 & (lx & Hl2 & He2 & Hin2))
    end.
    { rewrite Hparams, <- app_assoc. reflexivity. }
    { exact Hsig. }
    { intros param' Hin. apply Hvalid. right. exact Hin. }
    rewrite length_app, Nat.add_1_r in Hrun2.
    exists w2. split; [exact Hrun2|]. split; [exact Hsig2|].
    cbn [log] in Hl2. eexists. split; [rewrite Hl2, <- app_assoc; reflexivity|]. split.
    + rewrite evaluations_app, He2. reflexivity.
    + intros param' par' [<-|Hin] Hp'.
      * rewrite Hp in Hp'. injection Hp' as <-.
        apply in_or_app. left. right. left. reflexivity.
      * apply in_or_app. right. apply (Hin2 param' par' Hin Hp').
Qed.

End ScanParametersCurves.

(** X10. [scan_parameters], for a collaborator that answers on every
    Parameter store and a non-empty list of Parameters: it returns, having
    called [Fisher.from_sample] a hundred times per listed Parameter, and
    the curve it plots for a Parameter is the scalar as a function of that
    Parameter alone, over the hundred values of [np.linspace(lb, ub, 100)]
    and with every other Parameter at the value it had before the call. *)
Theorem scan_parameters_plots_one_curve_per_parameter {Fisher : Type}
    (min_eigenval : Fisher -> Q)
    (from_sample : list Parameter_ -> BaseSample Fisher -> list angle_time -> outcome Fisher)
    (sample : BaseSample Fisher) (params : list loc) (angle_times : list angle_time)
    (fisher_of : list Parameter_ -> Fisher) (w : world) :
  (forall sigma, from_sample sigma sample angle_times = Ok (fisher_of sigma)) ->
  params <> [] ->
  (forall param, In param params -> is_Some (parameters w !! param)) ->
  exists w',
    scan_parameters min_eigenval from_sample sample params angle_times w = (Ok tt, w')
    /\ length (evaluations (log w')) =
       (length (evaluations (log w)) + 100 * length params)%nat
    /\ (forall param par, In param params -> parameters w !! param = Some par ->
          In (EPlot (linspace (bounds_lb par) (bounds_ub par) 100)
                (List.map
                   (fun v =>
                      min_eigenval (fisher_of (<[param := set_value v par]> (parameters w))))
                   (linspace (bounds_lb par) (bounds_ub par) 100))
                (param_name par))
             (log w')).
Proof.
  intros Hanswers Hne Hvalid.
  unfold scan_parameters.
  destruct (scan_all_parameters min_eigenval from_sample sample angle_times fisher_of
              Hanswers (parameters w) params [] [] w eq_refl Hvalid)
    as (w1 & Hrun1 & Hsig1 & (lx1 & Hl1 & Hn1)).
  rewrite (bind_ok _ _ _ _ _ Hrun1). cbn [app].
  assert (Hmax : exists ymax,
            max_of (concat (List.map
                              (fun param =>
                                 match parameters w !! param with
                                 | Some par =>
                                     List.map
                                       (fun v =>
                                          min_eigenval
                                            (fisher_of (<[param := set_value v par]>
                                                          (parameters w))))
                                       (linspace (bounds_lb par) (bounds_ub par) 100)
                                 | None => []
                                 end) params)) w1 = (Ok ymax, w1)).
  { destruct params as [|p0 t]; [congruence|].
    destruct (Hvalid p0 (or_introl eq_refl)) as [par0 Hp0].
    cbn [List.map concat]. rewrite Hp0.
    pose proof (linspace_length (bounds_lb par0) (bounds_ub par0) 100) as Hl.
    destruct (linspace (bounds_lb par0) (bounds_ub par0) 100) as [|x xs];
      [discriminate|].
    eexists. reflexivity. }
  destruct Hmax as [ymax Hmax].
  rewrite (bind_ok _ _ _ _ _ Hmax).
  destruct (plot_all_parameters min_eigenval fisher_of (parameters w) ymax params params
              [] w1 eq_refl Hsig1 Hvalid)
    as (w2 & Hrun2 & _ & (lx2 & Hl2 & He2 & Hin2)).
  exists w2. split; [exact Hrun2|]. split.
  - rewrite Hl2, Hl1, !evaluations_app, !length_app, He2, Hn1. cbn [length]. lia.
  - intros param par Hin Hp. rewrite Hl2. apply in_or_app. right.
    apply (Hin2 param par Hin Hp).
Qed.

Lemma scan_parameters_plots_one_curve_per_parameter_witness :
  exists w',
    scan_parameters (fun x : Q => x) sum_from_sample toy_sample [1%nat; 0%nat] []
      toy_world = (Ok tt, w')
    /\ length (evaluations (log w')) =
       (length (evaluations (log toy_world)) + 100 * length [1%nat; 0%nat])%nat
    /\ (forall param par, In param [1%nat; 0%nat] ->
          parameters toy_world !! param = Some par ->
          In (EPlot (linspace (bounds_lb par) (bounds_ub par) 100)
                (List.map
                   (fun v =>
                      fold_right (fun p total => value p + total) 0
                        (<[param := set_value v par]> (parameters toy_world)))
                   (linspace (bounds_lb par) (bounds_ub par) 100))
                (param_name par))
             (log w')).
Proof.
  apply (scan_parameters_plots_one_curve_per_parameter (fun x : Q => x) sum_from_sample
           toy_sample [1%nat; 0%nat] []
           (fun sigma => fold_right (fun p total => value p + total) 0 sigma) toy_world).
  - intros sigma. reflexivity.
  - discriminate.
  - intros param [<-|[<-|[]]]; eexists; reflexivity.
Defined.

(** ** The two conversions, one at a time *)

Import Samples.

Lemma reverse_map {A B} (f : A -> B) (l : list A) :
  reverse (List.map f l) = List.map f (reverse l).
Proof.
  induction l as [|x t IH]; [reflexivity|].
  cbn [List.map]. rewrite !reverse_cons, IH, List.map_app. reflexivity.
Qed.

Lemma to_refl1d_run (self : Sample) (s : Structure) :
  structure_ self = RefnxStructure s ->
  (2 <= length (data s))%nat ->
  to_refl1d self
  = Ok (set_structure
          (Refl1dStack
             {| stack_name := structure_name s;
                layers := reverse (List.map (fun c => refl1d_layer_of c) (drop 1 (data s)))
                          ++ [layer_of (Material_ 0 0 "Air") 0 0] |})
          self).
Proof.
  intros Hs Hlen. unfold to_refl1d. rewrite Hs.
  destruct s as [nm [|c0 [|c1 rest]]]; cbn [data length] in Hlen; try lia.
  cbn [data drop ofold refl1d_or obind structure_name].
  rewrite to_refl1d_loop. cbn [obind set_name layers stack_name List.map].
  rewrite reverse_cons, <- app_assoc. reflexivity.
Qed.

Lemma to_refnx_run (self : Sample) (s : Stack) :
  structure_ self = Refl1dStack s ->
  (2 <= length (layers s))%nat ->
  to_refnx self
  = Ok (set_structure
          (RefnxStructure
             {| structure_name := stack_name s;
                data := slab_of (SLD_ 0 "Air") (fixed 0) (fixed 0)
                        :: List.map (fun l => refnx_slab_of l)
                             (drop 1 (reverse (layers s))) |})
          self).
Proof.
  intros Hs Hlen. unfold to_refnx. rewrite Hs.
  assert (Hrest : (1 <= length (drop 1 (reverse (layers s))))%nat).
  { rewrite length_drop, length_reverse. lia. }
  destruct (drop 1 (reverse (layers s))) as [|l1 rest]; cbn [length] in Hrest; [lia|].
  cbn [ofold refnx_ior obind]. rewrite to_refnx_loop.
  cbn [obind set_name structure_name data app List.map]. reflexivity.
Qed.

(** Converting a Refl1D stack of at least two layers to refnx and back. *)
Lemma reverse_roundtrip_run (self : Sample) (s : Stack) :
  structure_ self = Refl1dStack s ->
  (2 <= length (layers s))%nat ->
  obind (to_refnx self) to_refl1d
  = Ok (set_structure
          (Refl1dStack
             {| stack_name := stack_name s;
                layers := List.map (fun l => refl1d_layer_of (refnx_slab_of l))
                            (take (length (layers s) - 1) (layers s))
                          ++ [layer_of (Material_ 0 0 "Air") 0 0] |})
          self).
Proof.
  intros Hs Hlen. rewrite (to_refnx_run self s Hs Hlen). cbn [obind].
  erewrite to_refl1d_run; [|reflexivity|].
  - cbn [data drop structure_name]. rewrite drop_0.
    rewrite List.map_map, reverse_map, reverse_drop, reverse_involutive.
    rewrite length_reverse. reflexivity.
  - cbn [data length]. rewrite length_map, length_drop, length_reverse. lia.
Qed.

(** X11. [Sample.to_refl1d] on a refnx structure of at least two
    components: the Refl1D stack keeps the name of the structure and has as
    many layers; component [i >= 1] becomes the layer at position
    [len - 1 - i], with its name and the values of its SLD, thickness and
    roughness, so the order is reversed; the first component is dropped
    whatever it holds, and the last layer is a fresh slab of Air. *)
Theorem to_refl1d_reverses_layers (self : Sample) (s : Structure) :
  structure_ self = RefnxStructure s ->
  (2 <= length (data s))%nat ->
  exists converted st,
    to_refl1d self = Ok converted
    /\ structure_ converted = Refl1dStack st
    /\ sample_name converted = sample_name self
    /\ stack_name st = structure_name s
    /\ length (layers st) = length (data s)
    /\ last (layers st) = Some (layer_of (Material_ 0 0 "Air") 0 0)
    /\ (forall i c, (1 <= i)%nat -> data s !! i = Some c ->
          layers st !! (length (data s) - 1 - i)%nat
          = Some (layer_of
                    (Material_ (value (real (sld c))) (value (imag (sld c))) (name c))
                    (value (thick c)) (value (rough c)))).
Proof.
  intros Hs Hlen. rewrite (to_refl1d_run self s Hs Hlen).
  eexists _, _. split; [reflexivity|]. split; [reflexivity|]. split; [reflexivity|].
  split; [reflexivity|]. cbn [layers]. split; [|split].
  - rewrite length_app, length_reverse, length_map, length_drop. cbn [length]. lia.
  - apply last_snoc.
  - intros i c Hi Hc. pose proof (lookup_lt_Some _ _ _ Hc) as Hlt.
    rewrite lookup_app_l
      by (rewrite length_reverse, length_map, length_drop; lia).
    rewrite reverse_lookup by (rewrite length_map, length_drop; lia).
    rewrite length_map, length_drop, lookup_map, lookup_drop.
    replace (1 + (length (data s) - 1 - S (length (data s) - 1 - i)))%nat with i by lia.
    rewrite Hc. reflexivity.
Qed.

Lemma to_refl1d_reverses_layers_witness :
  exists converted st,
    to_refl1d four_layer_sample = Ok converted
    /\ structure_ converted = Refl1dStack st
    /\ sample_name converted = sample_name four_layer_sample
    /\ stack_name st = "simple_sample"%string
    /\ length (layers st) = 4%nat
    /\ last (layers st) = Some (layer_of (Material_ 0 0 "Air") 0 0)
    /\ (forall i c, (1 <= i)%nat ->
          [air;
           slab_of (SLD_ 4 "Layer 1") (fixed 100) (fixed 2);
           slab_of (SLD_ 8 "Layer 2") (fixed 150) (fixed 2);
           slab_of (SLD_ (2047 # 1000) "Substrate") (fixed 0) (fixed 2)] !! i = Some c ->
          layers st !! (4 - 1 - i)%nat
          = Some (layer_of
                    (Material_ (value (real (sld c))) (value (imag (sld c))) (name c))
                    (value (thick c)) (value (rough c)))).
Proof.
  apply (to_refl1d_reverses_layers four_layer_sample
           (Structure_of
              [air;
               slab_of (SLD_ 4 "Layer 1") (fixed 100) (fixed 2);
               slab_of (SLD_ 8 "Layer 2") (fixed 150) (fixed 2);
               slab_of (SLD_ (2047 # 1000) "Substrate") (fixed 0) (fixed 2)]
              "simple_sample")).
  - reflexivity.
  - simpl. lia.
Defined.

(** X12. The round trip from the other side.  For a sample whose Refl1D
    stack has at least two layers, [to_refnx] followed by [to_refl1d]
    yields a stack of the same name and as many layers; every layer but the
    last keeps its position, its name and the values of rho, irho,
    thickness and interface; the last layer is replaced by a slab of Air. *)
Theorem reverse_roundtrip_layers_preserved (self : Sample) (s : Stack) :
  structure_ self = Refl1dStack s ->
  (2 <= length (layers s))%nat ->
  exists converted s',
    obind (to_refnx self) to_refl1d = Ok converted
    /\ structure_ converted = Refl1dStack s'
    /\ stack_name s' = stack_name s
    /\ length (layers s') = length (layers s)
    /\ last (layers s') = Some (layer_of (Material_ 0 0 "Air") 0 0)
    /\ (forall i l, (i < length (layers s) - 1)%nat -> layers s !! i = Some l ->
          exists l',
            layers s' !! i = Some l'
            /\ layer_name l' = layer_name l
            /\ value (rho (material l')) = value (rho (material l))
            /\ value (irho (material l')) = value (irho (material l))
            /\ value (thickness l') = value (thickness l)
            /\ value (interface l') = value (interface l)).
Proof.
  intros Hs Hlen. rewrite (reverse_roundtrip_run self s Hs Hlen).
  eexists _, _. split; [reflexivity|]. split; [reflexivity|]. split; [reflexivity|].
  cbn [layers]. split; [|split].
  - rewrite length_app, length_map, length_take. cbn [length]. lia.
  - apply last_snoc.
  - intros i l Hi Hl.
    rewrite lookup_app_l by (rewrite length_map, length_take; lia).
    rewrite lookup_map, lookup_take_lt by lia. rewrite Hl.
    eexists. split; [reflexivity|]. repeat split.
Qed.

Lemma reverse_roundtrip_layers_preserved_witness :
  exists converted s',
    obind (to_refnx refl1d_sample) to_refl1d = Ok converted
    /\ structure_ converted = Refl1dStack s'
    /\ stack_name s' = "film"%string
    /\ length (layers s') = 3%nat
    /\ last (layers s') = Some (layer_of (Material_ 0 0 "Air") 0 0)
    /\ (forall i l, (i < 3 - 1)%nat -> layers refl1d_stack !! i = Some l ->
          exists l',
            layers s' !! i = Some l'
            /\ layer_name l' = layer_name l
            /\ value (rho (material l')) = value (rho (material l))
            /\ value (irho (material l')) = value (irho (material l))
            /\ value (thickness l') = value (thickness l)
            /\ value (interface l') = value (interface l)).
Proof.
  apply (reverse_roundtrip_layers_preserved refl1d_sample refl1d_stack).
  - reflexivity.
  - simpl. lia.
Defined.

(** X13. A Refl1D stack of fewer than two layers does not convert to a
    refnx structure: [to_refnx] returns, but it leaves the bare scatterer
    Air, renamed after the stack, in [self.structure], and [to_refl1d] then
    fails its [assert]. *)
Theorem to_refnx_on_short_stack (self : Sample) (s : Stack) :
  structure_ self = Refl1dStack s ->
  (length (layers s) < 2)%nat ->
  exists converted,
    to_refnx self = Ok converted
    /\ structure_ converted
       = RefnxScatterer {| sld_name := stack_name s; real := fixed 0; imag := fixed 0 |}
    /\ to_refl1d converted = Raise AssertionError.
Proof.
  intros Hs Hlen. unfold to_refnx. rewrite Hs.
  destruct s as [nm [|l0 [|l1 rest]]]; cbn [layers length] in Hlen; try lia.
  - eexists. split; [reflexivity|]. repeat split.
  - eexists. split; [reflexivity|]. repeat split.
Qed.

Lemma to_refnx_on_short_stack_witness :
  exists converted,
    to_refnx short_refl1d_sample = Ok converted
    /\ structure_ converted
       = RefnxScatterer {| sld_name := "bare"; real := fixed 0; imag := fixed 0 |}
    /\ to_refl1d converted = Raise AssertionError.
Proof.
  apply (to_refnx_on_short_stack short_refl1d_sample
           {| stack_name := "bare"; layers := [layer_of (Material_ 2 0 "Si") 0 3] |}).
  - reflexivity.
  - simpl. lia.
Defined.

(** ** What the round trip forgets *)

(** The refnx slab that comes back for a component. *)
Local Abbreviation returned_slab c := (refnx_slab_of (refl1d_layer_of c)).

Lemma plain_slabs_no_underlayers (l : list Slab) :
  Forall (fun c => class c = PlainSlab) l ->
  forall n,
    fold_left
      (fun num layer =>
         match class layer with
         | PlainSlab => num
         | UnderLayerClass underlayer
         | MagneticLayerClass _ _ _ underlayer =>
             (num + (if underlayer then 1 else 0))%nat
         end) l n = n.
Proof.
  induction 1 as [|c t Hc _ IH]; intros n; cbn [fold_left]; [reflexivity|].
  rewrite Hc. apply IH.
Qed.

Lemma plain_slabs_no_spin (f g : Slab -> Slab) (l : list Slab) :
  Forall (fun c => class c = PlainSlab) l ->
  List.map (fun layer => if isinstance_MagneticLayer layer then f layer else g layer) l
  = List.map g l.
Proof.
  induction 1 as [|c t Hc _ IH]; cbn [List.map]; [reflexivity|].
  unfold isinstance_MagneticLayer at 1. rewrite Hc, IH. reflexivity.
Qed.

Lemma get_structures_run (self : Sample) (s : Structure) :
  structure_ self = RefnxStructure s ->
  get_structures self
  = Ok [RefnxStructure
          {| structure_name := EmptyString;
             data := List.map (fun c => if isinstance_MagneticLayer c then up_layer c else c)
                       (data s) |};
        RefnxStructure
          {| structure_name := EmptyString;
             data := List.map
                       (fun c => if isinstance_MagneticLayer c then down_layer c else c)
                       (data s) |}].
Proof.
  intros Hs. unfold get_structures. rewrite Hs. unfold enumerate.
  pose proof (spin_loop EmptyString EmptyString (data s) []) as Hloop.
  cbn [length List.map app] in Hloop. unfold Structure_copy. rewrite Hloop.
  reflexivity.
Qed.

(** X14. The round trip reaches a fixed point at once.  For a sample whose
    refnx structure has at least two components, converting to Refl1D and
    back a second time returns the very sample the first round trip
    produced. *)
Theorem roundtrip_idempotent (self : Sample) (s : Structure) :
  structure_ self = RefnxStructure s ->
  (2 <= length (data s))%nat ->
  exists converted,
    obind (to_refl1d self) to_refnx = Ok converted
    /\ obind (to_refl1d converted) to_refnx = Ok converted.
Proof.
  intros Hs Hlen. rewrite (roundtrip_run self s Hs Hlen).
  eexists. split; [reflexivity|].
  erewrite roundtrip_run; [|reflexivity|].
  - cbn [data drop structure_name]. rewrite drop_0, List.map_map. reflexivity.
  - cbn [data length]. rewrite length_map, length_drop. lia.
Qed.

Lemma roundtrip_idempotent_witness :
  exists converted,
    obind (to_refl1d magnetic_sample) to_refnx = Ok converted
    /\ obind (to_refl1d converted) to_refnx = Ok converted.
Proof.
  apply (roundtrip_idempotent magnetic_sample
           (Structure_of
              [air; MagneticLayer 1 5 6 10 6 true "magnetic_layer";
               UnderLayer 6 50 0 "underlayer"]
              "magnetic")).
  - reflexivity.
  - simpl. lia.
Defined.

(** X15. The round trip keeps names and values only.  After [to_refl1d]
    and [to_refnx] on a sample whose refnx structure has at least two
    components, every component is a plain slab whose SLD and thickness are
    fixed Parameters without bounds; so [num_underlayers] is 0 whatever it
    was, and [get_structures] returns two copies of the same components,
    no spin state being left to tell apart. *)
Theorem roundtrip_forgets_underlayers (self : Sample) (s : Structure) :
  structure_ self = RefnxStructure s ->
  (2 <= length (data s))%nat ->
  exists converted s',
    obind (to_refl1d self) to_refnx = Ok converted
    /\ structure_ converted = RefnxStructure s'
    /\ Forall (fun c => class c = PlainSlab
                        /\ vary (real (sld c)) = false /\ bounds (real (sld c)) = None
                        /\ vary (thick c) = false /\ bounds (thick c) = None)
         (data s')
    /\ num_underlayers converted = Ok 0%nat
    /\ (exists up down,
          get_structures converted = Ok [RefnxStructure up; RefnxStructure down]
          /\ data up = data s' /\ data down = data s').
Proof.
  intros Hs Hlen. rewrite (roundtrip_run self s Hs Hlen).
  eexists _, _. split; [reflexivity|]. split; [reflexivity|].
  cbn [data].
  assert (Hplain : Forall (fun c => class c = PlainSlab)
                     (slab_of (SLD_ 0 "Air") (fixed 0) (fixed 0)
                      :: List.map (fun c => returned_slab c) (drop 1 (data s)))).
  { constructor; [reflexivity|]. apply List.Forall_forall. intros c Hin.
    apply in_map_iff in Hin. destruct Hin as (c0 & <- & _). reflexivity. }
  split; [|split].
  - constructor; [repeat split|]. apply List.Forall_forall. intros c Hin.
    apply in_map_iff in Hin. destruct Hin as (c0 & <- & _). repeat split.
  - unfold num_underlayers. cbn [structure_ set_structure data].
    rewrite (plain_slabs_no_underlayers _ Hplain). reflexivity.
  - erewrite get_structures_run; [|reflexivity]. cbn [data].
    eexists _, _. split; [reflexivity|]. cbn [data].
    rewrite !(plain_slabs_no_spin _ (fun c => c) _ Hplain), List.map_id.
    split; reflexivity.
Qed.

Lemma roundtrip_forgets_underlayers_witness :
  num_underlayers magnetic_sample = Ok 2%nat
  /\ exists converted s',
       obind (to_refl1d magnetic_sample) to_refnx = Ok converted
       /\ structure_ converted = RefnxStructure s'
       /\ Forall (fun c => class c = PlainSlab
                           /\ vary (real (sld c)) = false /\ bounds (real (sld c)) = None
                           /\ vary (thick c) = false /\ bounds (thick c) = None)
            (data s')
       /\ num_underlayers converted = Ok 0%nat
       /\ (exists up down,
             get_structures converted = Ok [RefnxStructure up; RefnxStructure down]
             /\ data up = data s' /\ data down = data s').
Proof.
  split; [reflexivity|].
  apply (roundtrip_forgets_underlayers magnetic_sample
           (Structure_of
              [air; MagneticLayer 1 5 6 10 6 true "magnetic_layer";
               UnderLayer 6 50 0 "underlayer"]
              "magnetic")).
  - reflexivity.
  - simpl. lia.
Defined.

(** ** [Sample.__vary_structure] *)

Lemma inner_length {A} (xs : list A) : length (inner xs) = (length xs - 2)%nat.
Proof. unfold inner. rewrite length_take, length_drop. lia. Qed.

Lemma flat_map_pair_length {A B} (f g : A -> B) (xs : list A) :
  length (flat_map (fun x => [f x; g x]) xs) = (2 * length xs)%nat.
Proof. induction xs as [|x t IH]; cbn [flat_map app length]; lia. Qed.

(** X16. [Sample.__vary_structure] hands back two parameters for each
    component of [structure[1:-1]], the SLD before the thickness and in the
    order of the components: [2 * (n - 2)] parameters for a structure of
    [n >= 2] components or layers and none for a shorter one.  On a refnx
    structure each of them is marked to vary and has the value the
    component had: varying a structure does not move it. *)
Theorem vary_structure_parameters (pmp : Q -> Param -> Param) (bound_size : Q) :
  (forall st : Structure,
     exists s' ps,
       vary_structure pmp (RefnxStructure st) bound_size = Ok (s', ps)
       /\ length ps = (2 * (length (data st) - 2))%nat
       /\ Forall (fun p => vary p = true) ps
       /\ List.map value ps
          = flat_map (fun c => [value (real (sld c)); value (thick c)]) (inner (data st)))
  /\ (forall st : Stack,
        exists s' ps,
          vary_structure pmp (Refl1dStack st) bound_size = Ok (s', ps)
          /\ length ps = (2 * (length (layers st) - 2))%nat).
Proof.
  split; intros st; cbn [vary_structure]; eexists _, _; (split; [reflexivity|]).
  - split; [|split].
    + rewrite flat_map_pair_length, inner_length. reflexivity.
    + apply List.Forall_forall. intros p Hin. apply in_flat_map in Hin.
      destruct Hin as (c & _ & [<-|[<-|[]]]); reflexivity.
    + induction (inner (data st)) as [|c t IH]; [reflexivity|].
      cbn [flat_map app List.map]. rewrite IH. reflexivity.
  - rewrite flat_map_pair_length, inner_length. reflexivity.
Qed.

(** ** [Sample.nested_sampling] *)

(** X17. [Sample.nested_sampling] on a sample that wraps a refnx structure
    never reaches the sampler and never saves a corner plot: it raises and
    leaves no trace.  Once the simulation and [ReflectDataset] have
    succeeded the exception is the AttributeError of [refnx.anaylsis], a
    module name that does not exist. *)
Theorem nested_sampling_refnx_never_samples {Model Dataset Objective Figure : Type}
    (simulate : structure -> list Visualise.angle_time ->
                outcome (Model * list (Q * Q * Q * Q)))
    (ReflectDataset : list Q -> list Q -> list Q -> outcome Dataset)
    (FitProblem : Model -> outcome Objective)
    (Sampler_sample : Objective -> bool -> outcome Figure)
    (self : Sample) (st : Structure) (angle_times : list Visualise.angle_time)
    (save_path filename : string) (dynamic : bool) (w : Visualise.world) :
  structure_ self = RefnxStructure st ->
  (exists e,
     nested_sampling simulate ReflectDataset FitProblem Sampler_sample self angle_times
       save_path filename dynamic w = (Raise e, w))
  /\ (forall model data dataset,
        simulate (structure_ self) angle_times = Ok (model, data) ->
        ReflectDataset (List.map (fun '(q, _, _, _) => q) data)
          (List.map (fun '(_, r, _, _) => r) data)
          (List.map (fun '(_, _, dr, _) => dr) data) = Ok dataset ->
        nested_sampling simulate ReflectDataset FitProblem Sampler_sample self angle_times
          save_path filename dynamic w = (Raise (AttributeError "anaylsis"), w)).
Proof.
  intros Hs. unfold nested_sampling. rewrite Hs.
  unfold Visualise.bind, Visualise.lift, Visualise.raise. split.
  - destruct (simulate (RefnxStructure st) angle_times) as [[model data]|e].
    + destruct (ReflectDataset _ _ _) as [dataset|e]; eexists; reflexivity.
    + eexists; reflexivity.
  - intros model data dataset Hsim Hdata. rewrite Hsim, Hdata. reflexivity.
Qed.

Lemma nested_sampling_refnx_never_samples_witness :
  (exists e,
     nested_sampling toy_simulate (fun q r dr => Ok (q, r, dr)) (fun _ => Ok tt)
       (fun _ _ => Ok tt) four_layer_sample [(7 # 10, 100%Z, 100000)]
       "results" "simple" false toy_world = (Raise e, toy_world))
  /\ (forall model data dataset,
        toy_simulate (structure_ four_layer_sample) [(7 # 10, 100%Z, 100000)]
        = Ok (model, data) ->
        (fun q r dr => Ok (q, r, dr)) (List.map (fun '(q, _, _, _) => q) data)
          (List.map (fun '(_, r, _, _) => r) data)
          (List.map (fun '(_, _, dr, _) => dr) data) = Ok dataset ->
        nested_sampling toy_simulate (fun q r dr => Ok (q, r, dr)) (fun _ => Ok tt)
          (fun _ _ => Ok tt) four_layer_sample [(7 # 10, 100%Z, 100000)]
          "results" "simple" false toy_world = (Raise (AttributeError "anaylsis"), toy_world)).
Proof.
  apply (nested_sampling_refnx_never_samples toy_simulate (fun q r dr => Ok (q, r, dr))
           (fun _ => Ok tt) (fun _ _ => Ok tt) four_layer_sample
           (Structure_of
              [air;
               slab_of (SLD_ 4 "Layer 1") (fixed 100) (fixed 2);
               slab_of (SLD_ 8 "Layer 2") (fixed 150) (fixed 2);
               slab_of (SLD_ (2047 # 1000) "Substrate") (fixed 0) (fixed 2)]
              "simple_sample")
           [(7 # 10, 100%Z, 100000)] "results" "simple" false toy_world).
  reflexivity.
Defined.
